(** * The depth-to-point-cloud pipeline of [open3d_gui]

    A shallow embedding of [src/open3d_gui/helper.py] ([pix2point],
    [get_food_mask], [poly2mask], [json2results]) and of the colour assembly
    of [_on_click_load_pcd] in [src/open3d_gui/tech_blog_demo.py].

    - numpy's [float64] is the kernel's binary64 [float] (IEEE 754, one NaN);
    - a 2-D array is a list of rows, a 3-D array a list of rows of lists;
    - a Python exception is a value of [exn] carried by [result]. *)

From Stdlib Require Import ZArith QArith Qround Floats Uint63 Lia.
From stdpp Require Import base tactics option list strings sorting.

Local Open Scope Z_scope.

(** ** Exceptions *)

Inductive exn : Set :=
| IndexError
| ValueError.

Inductive result (A : Type) : Type :=
| Ok (a : A)
| Raise (e : exn).
Arguments Ok {A} a.
Arguments Raise {A} e.

Global Instance result_ret : MRet result := fun _ a => Ok a.
Global Instance result_bind : MBind result := fun _ _ k m =>
  match m with
  | Ok a => k a
  | Raise e => Raise e
  end.

(** [seq[i]] for a non-negative constant index. *)
Definition getitem {A} (l : list A) (i : nat) : result A :=
  match l !! i with
  | Some a => Ok a
  | None => Raise IndexError
  end.

(** ** Two-dimensional arrays *)

Abbreviation grid A := (list (list A)).

Definition shape {A} (g : grid A) : nat * nat :=
  (length g, from_option length 0%nat (head g)).

(** The array [g] has [h] rows of [w] entries each. *)
Definition has_shape {A} (h w : nat) (g : grid A) : Prop :=
  length g = h ∧ Forall (fun row => length row = w) g.

(** [g[r, c]], when the pixel exists. *)
Definition glookup {A} (g : grid A) (r c : nat) : option A :=
  g !! r ≫= fun row => row !! c.

Definition full {A} (h w : nat) (v : A) : grid A :=
  replicate h (replicate w v).

(** Element-wise operations; both operands have the same shape wherever the
    source applies them. *)
Definition gmap {A B} (f : A → B) (g : grid A) : grid B :=
  (fun row : list A => f <$> row) <$> g.

Definition gzip {A B C} (f : A → B → C) (a : grid A) (b : grid B) : grid C :=
  zip_with (zip_with f) a b.

(** [np.arange(n)] *)
Definition arange (n : nat) : list Z := Z.of_nat <$> seq 0 n.

(** [np.meshgrid(xs, ys)] with the default [indexing='xy']: both results
    have [len(ys)] rows and [len(xs)] columns. *)
Definition meshgrid {A B} (xs : list A) (ys : list B) : grid A * grid B :=
  ((fun _ => xs) <$> ys, (fun y => (fun _ => y) <$> xs) <$> ys).

(** [np.transpose(np.array(planes), (1, 2, 0))] for planes of shape
    [(h, w)]: entry [(r, c)] lists the planes' values at [(r, c)]. *)
Definition transpose_120 {A} (h w : nat) (planes : list (grid A)) : grid (list A) :=
  foldr (gzip cons) (full h w []) planes.

(** ** [pix2point] *)

(** An [int64] index as a [float64]. *)
Definition of_int64 (z : Z) : float :=
  if z <? 0 then PrimFloat.opp (of_uint63 (Uint63.of_Z (- z)))
  else of_uint63 (Uint63.of_Z z).

Declare Scope nd_scope.
Delimit Scope nd_scope with nd.
Notation "a ⊕ b" := (gzip PrimFloat.add a b)
  (at level 50, left associativity) : nd_scope.
Notation "a ⊗ b" := (gzip PrimFloat.mul a b)
  (at level 40, left associativity) : nd_scope.
Notation "s ⊞ a" := (gmap (PrimFloat.add s) a)
  (at level 50, left associativity) : nd_scope.
Notation "s ⊙ a" := (gmap (PrimFloat.mul s) a)
  (at level 40, left associativity) : nd_scope.

(** [depth_intrinsics_dict] *)
Record intrinsics : Set := {
  coeffs : list float;
  fx : float;
  fy : float;
  height : Z;
  ppx : float;
  ppy : float;
  width : Z
}.

Definition pix2point (depth : grid float) (d : intrinsics)
  : result (grid (list float)) :=
  let '(height, width) := shape depth in
  let '(x_s_idx, y_s_idx) := meshgrid (arange width) (arange height) in
  let point_array_x := full height width 0%float in
  let point_array_y := full height width 0%float in
  let x := gmap (fun i => (of_int64 i - ppx d) / fx d)%float x_s_idx in
  let y := gmap (fun i => (of_int64 i - ppy d) / fy d)%float y_s_idx in
  let r2 := (x ⊗ x ⊕ y ⊗ y)%nd in
  c0 ← getitem (coeffs d) 0;
  c1 ← getitem (coeffs d) 1;
  c4 ← getitem (coeffs d) 4;
  let f := (1%float ⊞ c0 ⊙ r2 ⊕ c1 ⊙ r2 ⊗ r2 ⊕ c4 ⊙ r2 ⊗ r2 ⊗ r2)%nd in
  c2 ← getitem (coeffs d) 2;
  c3 ← getitem (coeffs d) 3;
  let ux := (x ⊗ f ⊕ (2 * c2)%float ⊙ x ⊗ y ⊕ c3 ⊙ (r2 ⊕ 2%float ⊙ x ⊗ x))%nd in
  c3' ← getitem (coeffs d) 3;
  c2' ← getitem (coeffs d) 2;
  let uy := (y ⊗ f ⊕ (2 * c3')%float ⊙ x ⊗ y ⊕ c2' ⊙ (r2 ⊕ 2%float ⊙ y ⊗ y))%nd in
  let x := ux in
  let y := uy in
  let point_array_x := (depth ⊗ x)%nd in
  let point_array_y := (depth ⊗ y)%nd in
  let array := [point_array_x; point_array_y; depth] in
  let real_coorinate_depth := transpose_120 height width array in
  Ok real_coorinate_depth.

(** ** [get_food_mask] *)

(** The dictionary [json2results] returns.  A mask holds [uint8] entries;
    the label image holds integer-valued [float64] entries, kept as
    integers. *)
Record results : Type := {
  class_names : list string;
  scores : list (option float);
  masks : list (grid Z)
}.

(** [a[m == 1] = v]: the boolean index has to have the shape of [a]. *)
Definition assign_where (a m : grid Z) (v : Z) : result (grid Z) :=
  if decide (shape m = shape a)
  then Ok (gzip (fun old x => if decide (x = 1) then v else old) a m)
  else Raise IndexError.

(** [for idx in sorted_idx: ranked_food_mask[masks[idx] == 1] = idx] *)
Fixpoint rank_loop (masks : list (grid Z)) (sorted_idx : list nat)
    (ranked_food_mask : grid Z) : result (grid Z) :=
  match sorted_idx with
  | [] => Ok ranked_food_mask
  | idx :: rest =>
      m ← getitem masks idx;
      ranked ← assign_where ranked_food_mask m (Z.of_nat idx);
      rank_loop masks rest ranked
  end.

(** Insertion into an ascending list without repetitions. *)
Fixpoint insert_unique (x : Z) (l : list Z) : list Z :=
  match l with
  | [] => [x]
  | y :: l' =>
      if x <? y then x :: l
      else if x =? y then l
      else y :: insert_unique x l'
  end.

(** [np.unique(a)]: the distinct entries of [a], ascending. *)
Definition np_unique (a : grid Z) : list Z :=
  foldr insert_unique [] (mjoin a).

(** [.astype("int16")] on an integer-valued entry: two's complement in 16
    bits. *)
Definition astype_int16 (v : Z) : Z := (v + 32768) mod 65536 - 32768.

Definition get_food_mask (results : results) : result (grid Z * list Z) :=
  let non_food_value := -1 in
  m0 ← getitem (masks results) 0;
  let height := (shape m0).1 in
  m0' ← getitem (masks results) 0;
  let width := (shape m0').2 in
  let ranked_food_mask := gmap (fun v => v * non_food_value) (full height width 1) in
  let sorted_idx := seq 0 (length (class_names results)) in
  ranked_food_mask ← rank_loop (masks results) sorted_idx ranked_food_mask;
  let unique_indices := astype_int16 <$> np_unique ranked_food_mask in
  let food_indices := filter (fun v => v ≠ non_food_value) unique_indices in
  Ok (ranked_food_mask, food_indices).

(** ** [json2results] and [poly2mask] *)

(** One entry of [data['shapes']].  A coordinate is a JSON number, kept as
    a rational; [ann_scores] is [shape['scores']['cls']] when the key
    ['scores'] is present. *)
Record annotation : Type := {
  label : string;
  ann_scores : option float;
  points : list (list Q);
  shape_type : string
}.

Record document : Type := {
  shapes : list annotation
}.

(** [np.array(points)] of a list of lists: the rows must agree in length. *)
Definition np_array (pts : list (list Q)) : result (grid Q) :=
  match pts with
  | [] => Ok []
  | p :: _ =>
      if decide (Forall (fun q => length q = length p) pts) then Ok pts
      else Raise ValueError
  end.

(** [.astype(np.int64)] of a value inside the [int64] range: truncation
    towards zero.  Outside the range the value numpy returns is not the
    truncation, and it depends on the array that [np.array] built from the
    points: [json2results_with] below leaves the cast open, and every
    statement about [json2results] that does not keep the coordinates
    inside the grid takes them inside the range. *)
Definition astype_int64 (q : Q) : Z := Z.quot (Qnum q) (Zpos (Qden q)).

(** Two's complement in 64 bits. *)
Definition wrap_int64 (z : Z) : Z :=
  (z + 9223372036854775808) mod 18446744073709551616 - 9223372036854775808.

(** A cast that is the truncation inside the range and keeps the low 64
    bits outside it, as a conversion between 64-bit integer arrays does;
    2^63 becomes -2^63. *)
Definition astype_int64_wrap (q : Q) : Z := wrap_int64 (astype_int64 q).

(** [a[i, j]] *)
Definition getitem2 {A} (a : grid A) (i j : nat) : result A :=
  row ← getitem a i; getitem row j.

Fixpoint traverse {A B} (f : A → result B) (l : list A) : result (list B) :=
  match l with
  | [] => Ok []
  | a :: l' => b ← f a; bs ← traverse f l'; Ok (b :: bs)
  end.

(** [a[:, j]]; an empty list of points is a one-dimensional array, which
    has no second axis. *)
Definition column {A} (a : grid A) (j : nat) : result (list A) :=
  match a with
  | [] => Raise IndexError
  | _ => traverse (fun row => getitem row j) a
  end.

(** What Python's [slice(i, _).indices(len)] makes of the bound [i]. *)
Definition slice_bound (i : Z) (len : nat) : nat :=
  Z.to_nat (if i <? 0 then Z.max (i + Z.of_nat len) 0 else Z.min i (Z.of_nat len)).

(** [a[r0:r1, c0:c1] = v] *)
Definition slice_assign {A} (a : grid A) (r0 r1 c0 c1 : Z) (v : A) : grid A :=
  let h := length a in
  imap (fun r row =>
    if decide (slice_bound r0 h ≤ r < slice_bound r1 h)%nat
    then
      let w := length row in
      imap (fun c old =>
        if decide (slice_bound c0 w ≤ c < slice_bound c1 w)%nat
        then v else old) row
    else row) a.

(** An integer index into an axis of length [len]. *)
Definition norm_index (i : Z) (len : nat) : result nat :=
  if decide (0 ≤ i < Z.of_nat len) then Ok (Z.to_nat i)
  else if decide (- Z.of_nat len ≤ i < 0) then Ok (Z.to_nat (i + Z.of_nat len))
  else Raise IndexError.

(** [a[rr, cc] = v] for index arrays [rr], [cc] of one length, given as the
    list of their pairs. *)
Fixpoint fancy_assign {A} (a : grid A) (idx : list (Z * Z)) (v : A)
  : result (grid A) :=
  match idx with
  | [] => Ok a
  | (r, c) :: rest =>
      r' ← norm_index r (shape a).1;
      c' ← norm_index c (shape a).2;
      fancy_assign (alter (fun row => <[c' := v]> row) r' a) rest v
  end.

Section decoder.

(** [skimage.draw.polygon(r, c, shape)] belongs to scikit-image, not to this
    repository: the decoder is stated for any rasteriser.  It returns the
    row and column indices of the filled pixels, two arrays of one length,
    held as the list of their pairs. *)
Variable draw_polygon : list Z → list Z → nat * nat → list (Z * Z).

Definition poly2mask (vertex_row_coords vertex_col_coords : list Z)
    (shape : nat * nat) : result (grid bool) :=
  let fill_coords := draw_polygon vertex_row_coords vertex_col_coords shape in
  let mask := full shape.1 shape.2 false in
  fancy_assign mask fill_coords true.

(** Lines 117-122 of [json2results]: the mask of one shape. *)
Definition shape_mask (s : annotation) (shape_ : nat * nat) : result (grid Z) :=
  pts ← np_array (points s);
  let mask_points := gmap astype_int64 pts in
  if decide (shape_type s = "rectangle") then
    let mask := full shape_.1 shape_.2 0 in
    r0 ← getitem2 mask_points 0 1;
    r1 ← getitem2 mask_points 1 1;
    c0 ← getitem2 mask_points 0 0;
    c1 ← getitem2 mask_points 1 0;
    Ok (slice_assign mask r0 r1 c0 c1 1)
  else
    rows ← column mask_points 1;
    cols ← column mask_points 0;
    mask ← poly2mask rows cols shape_;
    Ok (gmap (fun b : bool => if b then 1 else 0) mask).

(** The loop of [json2results] over [data['shapes']]. *)
Fixpoint json2results_loop (todo : list annotation) (shape_ : nat * nat)
    (acc : results) : result results :=
  match todo with
  | [] => Ok acc
  | s :: rest =>
      let names := class_names acc ++ [label s] in
      let scs := scores acc ++ [ann_scores s] in
      mask ← shape_mask s shape_;
      json2results_loop rest shape_
        {| class_names := names; scores := scs; masks := masks acc ++ [mask] |}
  end.

Definition json2results (data : document) (shape_ : nat * nat) : result results :=
  json2results_loop (shapes data) shape_
    {| class_names := []; scores := []; masks := [] |}.

End decoder.

(** The decoder with [.astype(np.int64)] left open: [cast] is what the
    conversion makes of one coordinate.  [json2results] is the instance at
    [astype_int64]. *)
Section decoder_with.

Variable cast : Q → Z.
Variable draw_polygon : list Z → list Z → nat * nat → list (Z * Z).

Definition shape_mask_with (s : annotation) (shape_ : nat * nat)
  : result (grid Z) :=
  pts ← np_array (points s);
  let mask_points := gmap cast pts in
  if decide (shape_type s = "rectangle") then
    let mask := full shape_.1 shape_.2 0 in
    r0 ← getitem2 mask_points 0 1;
    r1 ← getitem2 mask_points 1 1;
    c0 ← getitem2 mask_points 0 0;
    c1 ← getitem2 mask_points 1 0;
    Ok (slice_assign mask r0 r1 c0 c1 1)
  else
    rows ← column mask_points 1;
    cols ← column mask_points 0;
    mask ← poly2mask draw_polygon rows cols shape_;
    Ok (gmap (fun b : bool => if b then 1 else 0) mask).

Fixpoint json2results_loop_with (todo : list annotation) (shape_ : nat * nat)
    (acc : results) : result results :=
  match todo with
  | [] => Ok acc
  | s :: rest =>
      let names := class_names acc ++ [label s] in
      let scs := scores acc ++ [ann_scores s] in
      mask ← shape_mask_with s shape_;
      json2results_loop_with rest shape_
        {| class_names := names; scores := scs; masks := masks acc ++ [mask] |}
  end.

Definition json2results_with (data : document) (shape_ : nat * nat)
  : result results :=
  json2results_loop_with (shapes data) shape_
    {| class_names := []; scores := []; masks := [] |}.

End decoder_with.

(** ** Colour assembly in [_on_click_load_pcd] *)

(** [uint8] subtraction: numpy keeps the array's type and wraps. *)
Definition uint8_sub (a b : Z) : Z := (a - b) mod 256.

(** [a[m]] for a boolean array over the first two axes of [a]: the selected
    entries, row by row. *)
Definition boolean_index {A} (a : grid A) (m : grid bool) : result (list A) :=
  if decide (shape m = shape a)
  then Ok (mjoin (zip_with (fun (row : list A) (mrow : list bool) =>
             zip row mrow ≫= fun p : A * bool => if p.2 then [p.1] else []) a m))
  else Raise IndexError.

(** One channel of [(png[food_mask] - 255) / 255]. *)
Definition color_value (rgb : Z) : float :=
  (of_int64 (uint8_sub rgb 255) / 255)%float.

(** [food_rgb] of the loop body, for the instance index [i]. *)
Definition food_rgb (png : grid (list Z)) (ranked_food_mask : grid Z) (i : Z)
  : result (list (list float)) :=
  let food_mask := gmap (fun v => bool_decide (v = i)) ranked_food_mask in
  px ← boolean_index png food_mask;
  Ok (gmap color_value px).

(** ** [_on_click_load_pcd]: from the loaded files to the scene

    The three files are the inputs; what the handler does to the viewer is
    kept as the list of the [add_geometry] calls it makes, in order, with
    the exception that ends it, if any.  The text label and the checkbox of
    each geometry are further calls on the viewer, made after
    [add_geometry] in the same iteration. *)

(** [DEPTH_INTRINSICS_1280x720]; [fy] is the double that the literal
    [921.6760864257812] denotes. *)
Definition DEPTH_INTRINSICS_1280x720 : intrinsics := {|
  coeffs := [0; 0; 0; 0; 0]%float;
  fx := 922.386962890625;
  fy := 921.67608642578125;
  height := 720;
  ppx := 634.551513671875;
  ppy := 350.37774658203125;
  width := 1280
|}.

(** [o3d.geometry.PointCloud] with its [points] and [colors]. *)
Record point_cloud : Type := {
  pc_points : grid float;
  pc_colors : grid float
}.

(** [np.vstack(a)] of a two-dimensional array: its rows stacked again; an
    array without rows gives nothing to concatenate. *)
Definition np_vstack {A} (a : grid A) : result (grid A) :=
  match a with
  | [] => Raise ValueError
  | _ => Ok a
  end.

(** [for i in food_indices: ...; mesh_list.append(pcd)] *)
Fixpoint cloud_loop (png : grid (list Z)) (ranked_food_mask : grid Z)
    (real_coords : grid (list float)) (food_indices : list Z)
    (mesh_list : list point_cloud) : result (list point_cloud) :=
  match food_indices with
  | [] => Ok mesh_list
  | i :: rest =>
      let food_mask := gmap (fun v => bool_decide (v = i)) ranked_food_mask in
      rgb ← food_rgb png ranked_food_mask i;
      food_depth ← boolean_index real_coords food_mask;
      pts ← np_vstack food_depth;
      cols ← np_vstack rgb;
      let pcd := {| pc_points := pts; pc_colors := cols |} in
      cloud_loop png ranked_food_mask real_coords rest (mesh_list ++ [pcd])
  end.

(** [for i, label_name in enumerate(mesh_info): cur_geo = mesh_list[i];
    ...add_geometry(label_name, cur_geo, mat)...], from index [i] on. *)
Fixpoint label_loop (mesh_info : list string) (mesh_list : list point_cloud)
    (i : nat) (scene : list (string * point_cloud))
  : list (string * point_cloud) * option exn :=
  match mesh_info with
  | [] => (scene, None)
  | label_name :: rest =>
      match mesh_list !! i with
      | None => (scene, Some IndexError)
      | Some cur_geo =>
          label_loop rest mesh_list (S i) (scene ++ [(label_name, cur_geo)])
      end
  end.

Section handler.

Variable draw_polygon : list Z → list Z → nat * nat → list (Z * Z).

(** Lines 189-206: the point clouds, with the labels they will get. *)
Definition load_pcd (png : grid (list Z)) (npy : grid float)
    (json_file : document) : result (list string * list point_cloud) :=
  results ← json2results draw_polygon json_file (shape npy);
  let mesh_info := class_names results in
  ranked_and_indices ← get_food_mask results;
  let '(ranked_food_mask, food_indices) := ranked_and_indices in
  real_coords ← pix2point npy DEPTH_INTRINSICS_1280x720;
  mesh_list ← cloud_loop png ranked_food_mask real_coords food_indices [];
  Ok (mesh_info, mesh_list).

Definition on_click_load_pcd (png : grid (list Z)) (npy : grid float)
    (json_file : document) : list (string * point_cloud) * option exn :=
  match load_pcd png npy json_file with
  | Raise e => ([], Some e)
  | Ok (mesh_info, mesh_list) => label_loop mesh_info mesh_list 0 []
  end.

End handler.

(** ** A rasteriser to run the decoder with

    scikit-image is a dependency of the repository, not part of it, and
    every general statement below about the decoder holds for any
    rasteriser.  To run the decoder on concrete documents it is given this
    one: the crossing-number test of scikit-image's [point_in_polygon] and
    the bounding-box scan of its [draw.polygon], in [float64] as there.  A
    pixel is filled when it is inside the polygon, on an edge or on a
    vertex. *)

(** [1e-12], the tolerance around a vertex. *)
Definition eps : float := 0x1.19799812dea11p-40%float.

(** The loop over the edges [(i-1, i)]; the result is 0 outside, 1 inside,
    2 on a vertex, 3 on an edge. *)
Fixpoint crossings (vs : list (float * float)) (x y x1 y1 : float)
    (r_cross l_cross : nat) : Z :=
  match vs with
  | [] =>
      if negb (Bool.eqb (Nat.odd r_cross) (Nat.odd l_cross)) then 3
      else if Nat.odd r_cross then 1
      else 0
  | (xi, yi) :: rest =>
      let x0 := (xi - x)%float in
      let y0 := (yi - y)%float in
      if ((- eps <? x0) && (x0 <? eps) && (- eps <? y0) && (y0 <? eps))%float
      then 2
      else
        let t := ((x0 * y1 - x1 * y0) / (y1 - y0))%float in
        let r_cross :=
          if negb (Bool.eqb (0 <? y0)%float (0 <? y1)%float) && (0 <? t)%float
          then S r_cross else r_cross in
        let l_cross :=
          if negb (Bool.eqb (y0 <? 0)%float (y1 <? 0)%float) && (t <? 0)%float
          then S l_cross else l_cross in
        crossings rest x y x0 y0 r_cross l_cross
  end.

Definition point_in_polygon (xp yp : list float) (x y : float) : Z :=
  match last (zip xp yp) with
  | None => 0
  | Some (xl, yl) => crossings (zip xp yp) x y (xl - x)%float (yl - y)%float 0 0
  end.

Definition pnpoly_polygon (r c : list Z) (shape : nat * nat) : list (Z * Z) :=
  match r, c with
  | r0 :: _, c0 :: _ =>
      let minr := Z.max 0 (foldr Z.min r0 r) in
      let maxr := Z.min (Z.of_nat shape.1 - 1) (foldr Z.max r0 r) in
      let minc := Z.max 0 (foldr Z.min c0 c) in
      let maxc := Z.min (Z.of_nat shape.2 - 1) (foldr Z.max c0 c) in
      r_i ← seqZ minr (maxr + 1 - minr);
      c_i ← seqZ minc (maxc + 1 - minc);
      if decide (point_in_polygon (of_int64 <$> c) (of_int64 <$> r)
                   (of_int64 c_i) (of_int64 r_i) = 0)
      then [] else [(r_i, c_i)]
  | _, _ => []
  end.

(** * Vocabulary of the statements, and sample inputs *)

(** ** For [pix2point] *)

(** One pixel of the coordinate field: the source's expressions at
    [(row, col)], products taken left to right as Python does. *)
Definition brown_conrady (d : intrinsics) (k1 k2 p1 p2 k3 : float)
    (row col : nat) (depth : float) : list float :=
  (let x := (of_int64 (Z.of_nat col) - ppx d) / fx d in
   let y := (of_int64 (Z.of_nat row) - ppy d) / fy d in
   let r2 := x * x + y * y in
   let f := 1 + k1 * r2 + k2 * r2 * r2 + k3 * r2 * r2 * r2 in
   let x' := x * f + 2 * p1 * x * y + p2 * (r2 + 2 * x * x) in
   let y' := y * f + 2 * p2 * x * y + p1 * (r2 + 2 * y * y) in
   [depth * x'; depth * y'; depth])%float.

(** The intrinsics with another distortion vector. *)
Definition with_coeffs (d : intrinsics) (cs : list float) : intrinsics :=
  {| coeffs := cs; fx := fx d; fy := fy d; height := height d;
     ppx := ppx d; ppy := ppy d; width := width d |}.

(** The distortion step alone, on the normalised coordinates [x], [y]. *)
Definition distort (k1 k2 p1 p2 k3 x y : float) : float * float :=
  (let r2 := x * x + y * y in
   let f := 1 + k1 * r2 + k2 * r2 * r2 + k3 * r2 * r2 * r2 in
   let x' := x * f + 2 * p1 * x * y + p2 * (r2 + 2 * x * x) in
   let y' := y * f + 2 * p2 * x * y + p1 * (r2 + 2 * y * y) in
   (x', y'))%float.

(** The normalised coordinates of a column and of a row. *)
Definition normalized_x (d : intrinsics) (col : nat) : float :=
  ((of_int64 (Z.of_nat col) - ppx d) / fx d)%float.

Definition normalized_y (d : intrinsics) (row : nat) : float :=
  ((of_int64 (Z.of_nat row) - ppy d) / fy d)%float.

(** With all coefficients zero the distortion step returns its input, bit
    for bit, at every pixel of an [h] by [w] image. *)
Definition no_distortion (d : intrinsics) (h w : nat) : bool :=
  let xs := normalized_x d <$> seq 0 w in
  let ys := normalized_y d <$> seq 0 h in
  forallb (fun y => forallb (fun x =>
    let p := distort 0 0 0 0 0 x y in
    PrimFloat.Leibniz.eqb p.1 x && PrimFloat.Leibniz.eqb p.2 y) xs) ys.

(** An infinity or NaN, on the IEEE reading of a [float]. *)
Definition nonfinite (x : float) : Prop :=
  match Prim2SF x with
  | S754_nan | S754_infinity _ => True
  | _ => False
  end.

Definition sample_depth : grid float := [[2; 3]; [4; 5]]%float.

Definition sample_intrinsics : intrinsics := {|
  coeffs := [0.5; 0.25; 0.125; 0.0625; 0.03125]%float;
  fx := 2; fy := 4; height := 2;
  ppx := 0.5; ppy := 0; width := 2
|}.

Definition zero_fx_intrinsics : intrinsics := {|
  coeffs := [0; 0; 0; 0; 0]%float;
  fx := 0; fy := 1; height := 2;
  ppx := 0.5; ppy := 0; width := 2
|}.

(** ** For [get_food_mask] *)

(** The mask of instance [i] is set at the pixel [(r, c)]. *)
Definition mask_on (ms : list (grid Z)) (i r c : nat) : Prop :=
  ∃ m, ms !! i = Some m ∧ glookup m r c = Some 1.

(** What the instances [lo], ..., [hi - 1], written in this order, leave at
    a pixel that held [old]. *)
Definition last_writer (ms : list (grid Z)) (lo hi r c : nat) (old new : Z) : Prop :=
  (new = old ∧ ∀ i, (lo ≤ i < hi)%nat → ¬ mask_on ms i r c) ∨
  (∃ i, (lo ≤ i < hi)%nat ∧ new = Z.of_nat i ∧ mask_on ms i r c ∧
        ∀ j, (i < j < hi)%nat → ¬ mask_on ms j r c).

Definition two_overlapping : results := {|
  class_names := ["plate"; "rice"];
  scores := [None; None];
  masks := [ [[1; 1; 0]; [0; 0; 0]]; [[0; 1; 1]; [0; 0; 0]] ]
|}.

Definition many_masks : results := {|
  class_names := replicate (Z.to_nat 32769) "food";
  scores := replicate (Z.to_nat 32769) None;
  masks := replicate (Z.to_nat 32769) [[1]]
|}.

Definition three_names_two_masks : results := {|
  class_names := ["plate"; "rice"; "soup"];
  scores := [None; None; None];
  masks := [ [[1; 1; 0]; [0; 0; 0]]; [[0; 1; 1]; [0; 0; 0]] ]
|}.

Definition one_name_two_masks : results := {|
  class_names := ["plate"];
  scores := [None];
  masks := [ [[1; 1; 0]; [0; 0; 0]]; [[0; 1; 1]; [0; 0; 0]] ]
|}.

(** ** For [json2results] *)

(** The two corners of a rectangle annotation, as JSON numbers. *)
Definition rectangle_points (col0 row0 col1 row1 : Z) : list (list Q) :=
  [[inject_Z col0; inject_Z row0]; [inject_Z col1; inject_Z row1]].

(** The four corners of the same rectangle, in drawing order. *)
Definition polygon_points (col0 row0 col1 row1 : Z) : list (list Q) :=
  [[inject_Z col0; inject_Z row0]; [inject_Z col1; inject_Z row0];
   [inject_Z col1; inject_Z row1]; [inject_Z col0; inject_Z row1]].

(** An annotation with its shape kind read the way the decoder reads it:
    whatever is not a rectangle is a polygon. *)
Definition as_polygon (s : annotation) : annotation :=
  if decide (shape_type s = "rectangle") then s
  else {| label := label s; ann_scores := ann_scores s;
          points := points s; shape_type := "polygon" |}.

Definition rectangle_annotation (col0 row0 col1 row1 : Z) : annotation := {|
  label := "plate"; ann_scores := None;
  points := rectangle_points col0 row0 col1 row1;
  shape_type := "rectangle"
|}.

Definition polygon_annotation (kind : string) (col0 row0 col1 row1 : Z)
  : annotation := {|
  label := "plate"; ann_scores := None;
  points := polygon_points col0 row0 col1 row1;
  shape_type := kind
|}.


Definition one_point_rectangle : annotation := {|
  label := "plate"; ann_scores := None;
  points := [[1; 1]]%Q; shape_type := "rectangle"
|}.

Definition ragged_polygon : annotation := {|
  label := "plate"; ann_scores := None;
  points := [[1; 1]; [3; 1]; [3]]%Q; shape_type := "polygon"
|}.



(** The range of [int64]. *)
Definition int64 (z : Z) : Prop :=
  -9223372036854775808 ≤ z < 9223372036854775808.

(** A cast that is the truncation on every value it can hold, as numpy's
    is whatever the array it converts. *)
Definition int64_cast (cast : Q → Z) : Prop :=
  ∀ q, int64 (astype_int64 q) → cast q = astype_int64 q.

(** Every coordinate of the annotation lies, cut to an integer, inside the
    range of [int64]. *)
Definition int64_points (s : annotation) : Prop :=
  Forall (Forall (fun q => int64 (astype_int64 q))) (points s).




(** The annotation under another label. *)
Definition named (name : string) (s : annotation) : annotation :=
  {| label := name; ann_scores := ann_scores s;
     points := points s; shape_type := shape_type s |}.

Definition empty_results : results :=
  {| class_names := []; scores := []; masks := [] |}.

(** ** For the colour assembly *)

(** The entries of one row that the boolean row keeps. *)
Definition kept {X} (row : list X) (mrow : list bool) : list X :=
  zip row mrow ≫= fun p : X * bool => if p.2 then [p.1] else [].

(** Row-major order of pixels. *)
Definition row_major (p q : nat * nat) : Prop :=
  (p.1 < q.1)%nat ∨ (p.1 = q.1 ∧ (p.2 < q.2)%nat).

(** The pixels at which a boolean array is set, as boolean indexing visits
    them: row by row from row [r] on, each row from left to right (from
    column [c] on). *)
Fixpoint row_positions (r c : nat) (mrow : list bool) : list (nat * nat) :=
  match mrow with
  | [] => []
  | b :: rest => (if b then [(r, c)] else []) ++ row_positions r (S c) rest
  end.

Fixpoint positions_from (r : nat) (m : grid bool) : list (nat * nat) :=
  match m with
  | [] => []
  | mrow :: rest => row_positions r 0 mrow ++ positions_from (S r) rest
  end.

(** A colour value lies in the unit interval. *)
Definition in_unit_interval (v : float) : bool :=
  ((0 <=? v) && (v <=? 1))%float.

Definition one_pixel_png : grid (list Z) := [[[0; 128; 255]]].

(** ** For [_on_click_load_pcd] *)

(** Instance [i] shows in the label image: some pixel of its mask lies
    under no later mask. *)
Definition seen (ms : list (grid Z)) (i : nat) : Prop :=
  ∃ r c, mask_on ms i r c ∧ ∀ j, (i < j)%nat → ¬ mask_on ms j r c.

(** [cloud] holds what the loop body selects for the index [i]: the points
    and the colours of the pixels labelled [i]. *)
Definition cloud_of (png : grid (list Z)) (ranked : grid Z)
    (real_coords : grid (list float)) (i : Z) (cloud : point_cloud) : Prop :=
  boolean_index real_coords (gmap (fun v => bool_decide (v = i)) ranked)
    = Ok (pc_points cloud) ∧
  food_rgb png ranked i = Ok (pc_colors cloud).

(** On a 2x2 image: a plate at pixel (0,0), rice over the left column, soup
    over the right column.  The rice covers the plate. *)
Definition covered_plate : document := {|
  shapes := [rectangle_annotation 0 0 1 1;
             named "rice" (rectangle_annotation 0 0 1 2);
             named "soup" (rectangle_annotation 1 0 2 2)]
|}.

Definition covered_plate_results : results := {|
  class_names := ["plate"; "rice"; "soup"];
  scores := [None; None; None];
  masks := [ [[1; 0]; [0; 0]]; [[1; 0]; [1; 0]]; [[0; 1]; [0; 1]] ]
|}.

(** A plate over the left column and rice over the right column. *)
Definition side_by_side : document := {|
  shapes := [rectangle_annotation 0 0 1 2;
             named "rice" (rectangle_annotation 1 0 2 2)]
|}.

Definition side_by_side_results : results := {|
  class_names := ["plate"; "rice"];
  scores := [None; None];
  masks := [ [[1; 0]; [1; 0]]; [[0; 1]; [0; 1]] ]
|}.

Definition sample_png : grid (list Z) :=
  [[[0; 0; 0]; [10; 20; 30]]; [[255; 255; 255]; [254; 128; 1]]].

(** * Properties *)

(** ** Arrays *)

Section grids.
Context {A B C : Type}.
Implicit Types (a : grid A) (b : grid B).

Lemma glookup_gmap (f : A → B) a r c :
  glookup (gmap f a) r c = f <$> glookup a r c.
Proof.
  unfold glookup, gmap. rewrite list_lookup_fmap.
  destruct (a !! r) as [row|]; simpl; [apply list_lookup_fmap | done].
Qed.

Lemma glookup_gzip (f : A → B → C) a b r c :
  glookup (gzip f a b) r c =
  x ← glookup a r c; y ← glookup b r c; Some (f x y).
Proof.
  unfold glookup, gzip. rewrite lookup_zip_with.
  destruct (a !! r) as [ra|]; simpl; [|done].
  destruct (b !! r) as [rb|]; simpl.
  - apply lookup_zip_with.
  - by destruct (ra !! c).
Qed.

Lemma glookup_full h w (v : A) r c :
  (r < h)%nat → (c < w)%nat → glookup (full h w v) r c = Some v.
Proof.
  intros Hr Hc. unfold glookup, full.
  rewrite lookup_replicate_2 by done. simpl. by apply lookup_replicate_2.
Qed.

Lemma glookup_lt h w a r c (x : A) :
  has_shape h w a → glookup a r c = Some x → (r < h)%nat ∧ (c < w)%nat.
Proof.
  intros [Hh Hw] Hl. unfold glookup in Hl.
  destruct (a !! r) as [row|] eqn:Hrow; simpl in Hl; [|done].
  split.
  - rewrite <- Hh. by eapply lookup_lt_Some.
  - rewrite <- (Forall_lookup_1 _ _ _ _ Hw Hrow). by eapply lookup_lt_Some.
Qed.

Lemma glookup_is_Some h w a r c :
  has_shape h w a → (r < h)%nat → (c < w)%nat → is_Some (glookup a r c).
Proof.
  intros [Hh Hw] Hr Hc. unfold glookup.
  destruct (lookup_lt_is_Some_2 a r) as [row Hrow]; [lia|].
  rewrite Hrow. simpl. apply lookup_lt_is_Some_2.
  by rewrite (Forall_lookup_1 _ _ _ _ Hw Hrow).
Qed.

Lemma has_shape_full h w (v : A) : has_shape h w (full h w v).
Proof.
  split; [apply length_replicate|].
  apply Forall_replicate, length_replicate.
Qed.

Lemma has_shape_gmap (f : A → B) h w a :
  has_shape h w a → has_shape h w (gmap f a).
Proof.
  intros [Hh Hw]. split; unfold gmap.
  - by rewrite length_fmap.
  - apply Forall_fmap. eapply Forall_impl; [exact Hw|].
    intros row Hrow. simpl. by rewrite length_fmap.
Qed.

Lemma has_shape_gzip (f : A → B → C) h w a b :
  has_shape h w a → has_shape h w b → has_shape h w (gzip f a b).
Proof.
  intros [Ha Hwa] [Hb Hwb]. split; unfold gzip.
  - rewrite length_zip_with. lia.
  - apply Forall_lookup. intros i row Hi.
    apply lookup_zip_with_Some in Hi as (ra & rb & -> & Hra & Hrb).
    rewrite length_zip_with.
    rewrite (Forall_lookup_1 _ _ _ _ Hwa Hra), (Forall_lookup_1 _ _ _ _ Hwb Hrb).
    lia.
Qed.

(** The shape numpy reports is the shape of the array. *)
Lemma has_shape_shape h w a :
  has_shape h w a → has_shape (shape a).1 (shape a).2 a ∧ (shape a).1 = h.
Proof.
  intros [Hh Hw]. unfold shape. simpl. split; [split|]; try done.
  destruct a as [|row a']; simpl; [constructor|].
  eapply Forall_impl; [exact Hw|]. intros r Hr. simpl.
  rewrite Hr. symmetry. by inversion Hw.
Qed.

Lemma shape_eq h w a : has_shape h w a → (0 < h)%nat → shape a = (h, w).
Proof.
  intros [Hh Hw] Hpos. unfold shape. destruct a as [|row a']; simpl in *; [lia|].
  f_equal; [done|]. by inversion Hw.
Qed.

Lemma glookup_meshgrid (xs : list A) (ys : list B) X Y r c x y :
  meshgrid xs ys = (X, Y) →
  xs !! c = Some x → ys !! r = Some y →
  glookup X r c = Some x ∧ glookup Y r c = Some y.
Proof.
  intros [= <- <-] Hx Hy. unfold glookup.
  rewrite !list_lookup_fmap, Hy. simpl.
  by rewrite list_lookup_fmap, Hx.
Qed.

Lemma has_shape_meshgrid (xs : list A) (ys : list B) X Y :
  meshgrid xs ys = (X, Y) →
  has_shape (length ys) (length xs) X ∧ has_shape (length ys) (length xs) Y.
Proof.
  intros [= <- <-]. unfold has_shape. rewrite !length_fmap.
  repeat split; apply Forall_fmap, Forall_forall; intros; simpl;
    by rewrite ?length_fmap.
Qed.

End grids.

Lemma arange_lookup n i : (i < n)%nat → arange n !! i = Some (Z.of_nat i).
Proof.
  intros Hi. unfold arange. by rewrite list_lookup_fmap, lookup_seq_lt.
Qed.

Lemma length_arange n : length (arange n) = n.
Proof. unfold arange. by rewrite length_fmap, length_seq. Qed.

Lemma has_shape_transpose_120 {A} h w (planes : list (grid A)) :
  Forall (has_shape h w) planes → has_shape h w (transpose_120 h w planes).
Proof.
  unfold transpose_120. induction 1 as [|p ps Hp _ IH]; simpl.
  - apply has_shape_full.
  - by apply has_shape_gzip.
Qed.

(** ** [pix2point] *)

Lemma pix2point_pixels (h w : nat) (D : grid float) (d : intrinsics)
    (k1 k2 p1 p2 k3 : float) :
  has_shape h w D →
  coeffs d = [k1; k2; p1; p2; k3] →
  ∃ out, pix2point D d = Ok out ∧ has_shape h w out ∧
    ∀ row col depth, glookup D row col = Some depth →
      glookup out row col = Some (brown_conrady d k1 k2 p1 p2 k3 row col depth).
Proof.
  intros HD Hc.
  destruct (has_shape_shape _ _ _ HD) as [HS Hh].
  unfold pix2point. destruct (shape D) as [h' w'] eqn:Hshape. simpl in HS, Hh.
  subst h'. rewrite Hc.
  destruct (meshgrid (arange w') (arange h)) as [X Y] eqn:Hm.
  destruct (has_shape_meshgrid _ _ _ _ Hm) as [Hmx Hmy].
  rewrite !length_arange in Hmx, Hmy.
  cbn [getitem lookup list_lookup mbind result_bind].
  eexists. split; [reflexivity|]. split.
  - destruct (decide (h = 0)%nat) as [->|Hpos].
    + destruct HD as [HDh _]. apply nil_length_inv in HDh. subst D.
      destruct Hmx as [Hx0 _]. apply nil_length_inv in Hx0. subst X.
      split; [done | constructor].
    + assert (w' = w) as ->.
      { rewrite (shape_eq h w D HD) in Hshape by lia. by inversion Hshape. }
      apply has_shape_transpose_120.
      repeat (apply Forall_cons; split); try apply Forall_nil;
        repeat first [ done | apply has_shape_gzip | apply has_shape_gmap ].
  - intros row col depth Hl.
    destruct (glookup_lt _ _ _ _ _ _ HS Hl) as [Hr Hcl].
    destruct (glookup_meshgrid _ _ _ _ row col _ _ Hm
                (arange_lookup _ _ Hcl) (arange_lookup _ _ Hr)) as [Hx Hy].
    unfold transpose_120, brown_conrady. cbn [foldr].
    repeat first
      [ rewrite glookup_gzip | rewrite glookup_gmap
      | rewrite Hx | rewrite Hy | rewrite Hl
      | rewrite (glookup_full h w') by done
      | progress cbn [mbind option_bind fmap option_fmap option_map] ].
    reflexivity.
Qed.

(** C1. For a depth image of shape (h, w) and intrinsics with non-zero
    focal lengths, [pix2point] returns an (h, w, 3) field whose entry at
    (row, col) is (D x', D y', D) for the distortion-corrected x', y' of
    the Brown-Conrady formulas, D the depth at (row, col).  Products are
    taken left to right, so r2^2 reads r2 * r2 after the coefficient. *)
Theorem pix2point_brown_conrady (h w : nat) (D : grid float) (d : intrinsics)
    (c0 c1 c2 c3 c4 : float) :
  has_shape h w D →
  coeffs d = [c0; c1; c2; c3; c4] →
  PrimFloat.eqb (fx d) 0 = false →
  PrimFloat.eqb (fy d) 0 = false →
  ∃ out, pix2point D d = Ok out ∧ has_shape h w out ∧
    ∀ row col depth, glookup D row col = Some depth →
      (let x := (of_int64 (Z.of_nat col) - ppx d) / fx d in
       let y := (of_int64 (Z.of_nat row) - ppy d) / fy d in
       let r2 := x * x + y * y in
       let f := 1 + c0 * r2 + c1 * r2 * r2 + c4 * r2 * r2 * r2 in
       let x' := x * f + 2 * c2 * x * y + c3 * (r2 + 2 * x * x) in
       let y' := y * f + 2 * c3 * x * y + c2 * (r2 + 2 * y * y) in
       glookup out row col = Some [depth * x'; depth * y'; depth])%float.
Proof.
  intros HD Hc _ _.
  destruct (pix2point_pixels h w D d c0 c1 c2 c3 c4 HD Hc) as (out & Hout & Hsh & Hpix).
  exists out. split; [done|]. split; [done|].
  intros row col depth Hl. apply (Hpix row col depth Hl).
Qed.

Lemma pix2point_brown_conrady_witness :
  ∃ out, pix2point sample_depth sample_intrinsics = Ok out ∧ has_shape 2 2 out ∧
    ∀ row col depth, glookup sample_depth row col = Some depth →
      (let x := (of_int64 (Z.of_nat col) - 0.5) / 2 in
       let y := (of_int64 (Z.of_nat row) - 0) / 4 in
       let r2 := x * x + y * y in
       let f := 1 + 0.5 * r2 + 0.25 * r2 * r2 + 0.03125 * r2 * r2 * r2 in
       let x' := x * f + 2 * 0.125 * x * y + 0.0625 * (r2 + 2 * x * x) in
       let y' := y * f + 2 * 0.0625 * x * y + 0.125 * (r2 + 2 * y * y) in
       glookup out row col = Some [depth * x'; depth * y'; depth])%float.
Proof.
  apply (pix2point_brown_conrady 2 2 sample_depth sample_intrinsics
           0.5 0.25 0.125 0.0625 0.03125).
  - repeat constructor.
  - reflexivity.
  - reflexivity.
  - reflexivity.
Defined.

(** Infinities and NaN are absorbing for the sums and products of the
    formula, and a division by zero produces one. *)
Lemma nonfinite_mul_l x y : nonfinite x → nonfinite (x * y)%float.
Proof.
  unfold nonfinite. rewrite FloatAxioms.mul_spec.
  destruct (Prim2SF x), (Prim2SF y); simpl; tauto.
Qed.

Lemma nonfinite_mul_r x y : nonfinite y → nonfinite (x * y)%float.
Proof.
  unfold nonfinite. rewrite FloatAxioms.mul_spec.
  destruct (Prim2SF x), (Prim2SF y); simpl; tauto.
Qed.

Lemma nonfinite_add_l x y : nonfinite x → nonfinite (x + y)%float.
Proof.
  unfold nonfinite. rewrite FloatAxioms.add_spec.
  destruct (Prim2SF x) as [| [] | |], (Prim2SF y) as [| [] | |]; simpl; tauto.
Qed.

Lemma nonfinite_add_r x y : nonfinite y → nonfinite (x + y)%float.
Proof.
  unfold nonfinite. rewrite FloatAxioms.add_spec.
  destruct (Prim2SF x) as [| [] | |], (Prim2SF y) as [| [] | |]; simpl; tauto.
Qed.

Lemma nonfinite_div_zero x d : (d =? 0)%float = true → nonfinite (x / d)%float.
Proof.
  unfold nonfinite. rewrite FloatAxioms.eqb_spec, FloatAxioms.div_spec.
  change (Prim2SF 0) with (S754_zero false).
  destruct (Prim2SF d) as [| [] | | []], (Prim2SF x); simpl;
    try discriminate; tauto.
Qed.

Lemma nonfinite_is_finite x : nonfinite x → is_finite x = false.
Proof.
  unfold nonfinite, is_finite, is_nan, is_infinity.
  rewrite !FloatAxioms.eqb_spec, FloatAxioms.abs_spec.
  change (Prim2SF infinity) with (S754_infinity false).
  destruct (Prim2SF x) as [| [] | |]; simpl; done.
Qed.

Create HintDb nonfinite.
#[local] Hint Resolve nonfinite_mul_l nonfinite_mul_r
  nonfinite_add_l nonfinite_add_r : nonfinite.

(** With a zero focal length both coordinates of every point are lost. *)
Lemma brown_conrady_nonfinite (d : intrinsics) (c0 c1 c2 c3 c4 : float)
    (row col : nat) (depth : float) :
  (fx d =? 0)%float = true ∨ (fy d =? 0)%float = true →
  ∃ px py, brown_conrady d c0 c1 c2 c3 c4 row col depth = [px; py; depth] ∧
           is_finite px = false ∧ is_finite py = false.
Proof.
  intros Hzero. unfold brown_conrady.
  set (x := ((of_int64 (Z.of_nat col) - ppx d) / fx d)%float).
  set (y := ((of_int64 (Z.of_nat row) - ppy d) / fy d)%float).
  assert (nonfinite x ∨ nonfinite y) as Hxy.
  { destruct Hzero as [H|H]; [left|right]; by apply nonfinite_div_zero. }
  assert (nonfinite (x * x + y * y)%float) as Hr2.
  { destruct Hxy; eauto with nonfinite. }
  eexists _, _. split; [reflexivity|].
  split; apply nonfinite_is_finite; eauto 12 with nonfinite.
Qed.

(** C4, as the code has it.  [pix2point] does not look at the focal
    lengths: with fx = 0 or fy = 0 it raises nothing and returns the
    (h, w, 3) field of the same expressions in IEEE arithmetic, in which
    the x and y coordinates of every point are an infinity or NaN. *)
Theorem pix2point_zero_focal_length (h w : nat) (D : grid float) (d : intrinsics)
    (c0 c1 c2 c3 c4 : float) :
  has_shape h w D →
  coeffs d = [c0; c1; c2; c3; c4] →
  (fx d =? 0)%float = true ∨ (fy d =? 0)%float = true →
  ∃ out, pix2point D d = Ok out ∧ has_shape h w out ∧
    ∀ row col depth, glookup D row col = Some depth →
      ∃ px py, glookup out row col = Some [px; py; depth] ∧
               [px; py; depth] = brown_conrady d c0 c1 c2 c3 c4 row col depth ∧
               is_finite px = false ∧ is_finite py = false.
Proof.
  intros HD Hc Hzero.
  destruct (pix2point_pixels h w D d c0 c1 c2 c3 c4 HD Hc) as (out & Hout & Hsh & Hpix).
  exists out. split; [done|]. split; [done|].
  intros row col depth Hl.
  destruct (brown_conrady_nonfinite d c0 c1 c2 c3 c4 row col depth Hzero)
    as (px & py & Heq & Hpx & Hpy).
  exists px, py. rewrite (Hpix row col depth Hl). by rewrite Heq.
Qed.

Lemma pix2point_zero_focal_length_witness :
  ∃ out, pix2point sample_depth zero_fx_intrinsics = Ok out ∧ has_shape 2 2 out ∧
    ∀ row col depth, glookup sample_depth row col = Some depth →
      ∃ px py, glookup out row col = Some [px; py; depth] ∧
               [px; py; depth] =
                 brown_conrady zero_fx_intrinsics 0 0 0 0 0 row col depth ∧
               is_finite px = false ∧ is_finite py = false.
Proof.
  apply (pix2point_zero_focal_length 2 2 sample_depth zero_fx_intrinsics 0 0 0 0 0).
  - repeat constructor.
  - reflexivity.
  - left. reflexivity.
Defined.

(** C4 as stated fails: with fx = 0 the call returns, and the x and y
    coordinates of every point are NaN. *)
Lemma pix2point_zero_fx_returns_nan :
  PrimFloat.eqb (fx zero_fx_intrinsics) 0 = true ∧
  pix2point sample_depth zero_fx_intrinsics =
    Ok [[[nan; nan; 2]; [nan; nan; 3]]; [[nan; nan; 4]; [nan; nan; 5]]]%float.
Proof. split; vm_compute; reflexivity. Qed.

(** ** [get_food_mask] *)

Lemma shape_agree {A B} h w (a : grid A) (b : grid B) :
  has_shape h w a → has_shape h w b → shape b = shape a.
Proof.
  intros Ha Hb. destruct (decide (h = 0)%nat) as [->|Hpos].
  - destruct Ha as [Ha _], Hb as [Hb _].
    apply nil_length_inv in Ha, Hb. by subst.
  - rewrite (shape_eq h w a), (shape_eq h w b) by (done || lia). done.
Qed.

Lemma has_shape_full_shape {A B} h w (m : grid A) (v : B) :
  has_shape h w m → has_shape h w (full (shape m).1 (shape m).2 v).
Proof.
  intros Hm. destruct (decide (h = 0)%nat) as [->|Hpos].
  - destruct Hm as [Hm _]. apply nil_length_inv in Hm. subst m.
    split; [done | constructor].
  - rewrite (shape_eq h w m) by (done || lia). apply has_shape_full.
Qed.

Lemma assign_where_spec h w (a m : grid Z) (v : Z) :
  has_shape h w a → has_shape h w m →
  ∃ a', assign_where a m v = Ok a' ∧ has_shape h w a' ∧
    ∀ r c old, glookup a r c = Some old →
      ∃ x, glookup m r c = Some x ∧
           glookup a' r c = Some (if decide (x = 1) then v else old).
Proof.
  intros Ha Hm. unfold assign_where.
  rewrite decide_True by (eapply shape_agree; eauto).
  eexists. split; [done|]. split; [by apply has_shape_gzip|].
  intros r c old Hl. destruct (glookup_lt _ _ _ _ _ _ Ha Hl) as [Hr Hc].
  destruct (glookup_is_Some _ _ _ r c Hm Hr Hc) as [x Hx].
  exists x. split; [done|]. by rewrite glookup_gzip, Hl, Hx.
Qed.

Lemma rank_loop_spec h w (ms : list (grid Z)) :
  Forall (has_shape h w) ms →
  ∀ n k ranked, (k + n ≤ length ms)%nat → has_shape h w ranked →
  ∃ ranked', rank_loop ms (seq k n) ranked = Ok ranked' ∧
    has_shape h w ranked' ∧
    ∀ r c old, glookup ranked r c = Some old →
      ∃ new, glookup ranked' r c = Some new ∧
             last_writer ms k (k + n) r c old new.
Proof.
  intros Hms. induction n as [|n IH]; intros k ranked Hk Hr.
  - exists ranked. split; [done|]. split; [done|].
    intros r c old Hl. exists old. split; [done|]. left. split; [done|]. lia.
  - cbn [seq rank_loop]. unfold getitem.
    destruct (lookup_lt_is_Some_2 ms k) as [m Hm]; [lia|]. rewrite Hm.
    cbn [mbind result_bind].
    destruct (assign_where_spec h w ranked m (Z.of_nat k) Hr
                (Forall_lookup_1 _ _ _ _ Hms Hm)) as (mid & -> & Hmid & Hpix).
    cbn [mbind result_bind].
    destruct (IH (S k) mid) as (ranked' & -> & Hsh & Hnew); [lia|done|].
    exists ranked'. split; [done|]. split; [done|].
    intros r c old Hl.
    destruct (Hpix r c old Hl) as (x & Hx & Hmidl).
    destruct (Hnew r c _ Hmidl) as (new & Hnewl & Hlw).
    exists new. split; [done|].
    destruct Hlw as [[-> Hnone]|(i & Hi & -> & Hon & Hlast)].
    + destruct (decide (x = 1)) as [->|Hx1].
      * right. exists k. split; [lia|]. split; [done|]. split.
        -- by exists m.
        -- intros j Hj. apply Hnone. lia.
      * left. split; [done|]. intros i Hi (m' & Hm' & Hon).
        destruct (decide (i = k)) as [->|Hne].
        -- rewrite Hm in Hm'. injection Hm' as <-. congruence.
        -- apply (Hnone i); [lia|]. by exists m'.
    + right. exists i. split; [lia|]. split; [done|]. split; [done|].
      intros j Hj. apply Hlast. lia.
Qed.

Lemma elem_of_insert_unique (x y : Z) l :
  y ∈ insert_unique x l ↔ y = x ∨ y ∈ l.
Proof.
  induction l as [|z l IH]; simpl.
  - rewrite list_elem_of_singleton, elem_of_nil. tauto.
  - destruct (Z.ltb_spec x z); [by rewrite elem_of_cons|].
    destruct (Z.eqb_spec x z) as [->|Hne].
    + rewrite elem_of_cons. tauto.
    + rewrite !elem_of_cons, IH. tauto.
Qed.

Lemma insert_unique_sorted (x : Z) l :
  StronglySorted Z.lt l → StronglySorted Z.lt (insert_unique x l).
Proof.
  induction 1 as [|z l Hl IH Hz]; simpl.
  - repeat constructor.
  - destruct (Z.ltb_spec x z) as [Hlt|Hge].
    + constructor; [by constructor|].
      constructor; [done|]. eapply Forall_impl; [exact Hz|].
      intros; simpl in *; lia.
    + destruct (Z.eqb_spec x z) as [->|Hne]; [by constructor|].
      constructor; [done|].
      apply Forall_forall. intros y Hy.
      apply elem_of_insert_unique in Hy as [->|Hy]; [lia|].
      by eapply Forall_forall in Hz.
Qed.

Lemma np_unique_sorted (g : grid Z) : StronglySorted Z.lt (np_unique g).
Proof.
  unfold np_unique. induction (mjoin g) as [|x l IH]; simpl.
  - constructor.
  - by apply insert_unique_sorted.
Qed.

Lemma elem_of_np_unique (g : grid Z) (v : Z) :
  v ∈ np_unique g ↔ ∃ r c, glookup g r c = Some v.
Proof.
  unfold np_unique.
  assert (∀ l, v ∈ foldr insert_unique [] l ↔ v ∈ l) as ->.
  { induction l as [|x l IH]; simpl; [done|].
    rewrite elem_of_insert_unique, elem_of_cons, IH. done. }
  rewrite list_elem_of_join. unfold glookup. split.
  - intros (row & Hv & Hrow).
    apply list_elem_of_lookup in Hv as [c Hc], Hrow as [r Hr].
    exists r, c. by rewrite Hr.
  - intros (r & c & Hl). destruct (g !! r) as [row|] eqn:Hr; [|done].
    exists row. split; eapply list_elem_of_lookup_2; eauto.
Qed.

Lemma StronglySorted_filter_lt (P : Z → Prop) `{!∀ x, Decision (P x)} l :
  StronglySorted Z.lt l → StronglySorted Z.lt (filter P l).
Proof.
  induction 1 as [|x l Hl IH Hx]; [constructor|].
  rewrite filter_cons. destruct (decide (P x)); [|done].
  constructor; [done|].
  apply Forall_forall. intros y [_ Hy]%list_elem_of_filter.
  by eapply Forall_forall in Hx.
Qed.

Lemma astype_int16_small (v : Z) :
  -32768 ≤ v < 32768 → astype_int16 v = v.
Proof. intros Hv. unfold astype_int16. rewrite Z.mod_small; lia. Qed.

(** The whole function: it returns, and each pixel holds the last writer. *)
Lemma get_food_mask_spec h w (res : results) :
  masks res ≠ [] →
  length (class_names res) = length (masks res) →
  Forall (has_shape h w) (masks res) →
  ∃ ranked,
    get_food_mask res =
      Ok (ranked, filter (fun v => v ≠ -1) (astype_int16 <$> np_unique ranked)) ∧
    has_shape h w ranked ∧
    ∀ r c, (r < h)%nat → (c < w)%nat →
      ∃ v, glookup ranked r c = Some v ∧
           last_writer (masks res) 0 (length (masks res)) r c (-1) v.
Proof.
  intros Hne Hlen Hms. unfold get_food_mask, getitem.
  destruct (masks res) as [|m0 ms'] eqn:Hmasks; [done|].
  cbn [lookup list_lookup mbind result_bind]. rewrite <- Hmasks in *.
  assert (has_shape h w m0) as Hm0.
  { rewrite Hmasks in Hms. by inversion Hms. }
  set (init := gmap _ (full _ _ 1)).
  assert (has_shape h w init) as Hinit
    by apply has_shape_gmap, has_shape_full_shape, Hm0.
  destruct (rank_loop_spec h w (masks res) Hms (length (masks res)) 0%nat init)
    as (ranked & Hloop & Hsh & Hpix); [lia|done|].
  rewrite Hlen, Hloop. cbn [mbind result_bind].
  exists ranked. split; [done|]. split; [done|].
  intros r c Hr Hc. apply Hpix. subst init.
  rewrite glookup_gmap.
  destruct (decide (h = 0)%nat) as [->|Hpos]; [lia|].
  rewrite (shape_eq h w m0) by (done || lia). simpl.
  by rewrite glookup_full.
Qed.

(** C2. For a non-empty list of masks over one grid, [get_food_mask]
    returns a label image that holds at every pixel the largest instance
    index whose mask is set there, and -1 where no mask is set; where two
    masks overlap the earlier index is not the label. *)
Theorem get_food_mask_last_writer_wins (h w : nat) (res : results) :
  masks res ≠ [] →
  length (class_names res) = length (masks res) →
  Forall (has_shape h w) (masks res) →
  ∃ ranked idxs,
    get_food_mask res = Ok (ranked, idxs) ∧ has_shape h w ranked ∧
    ∀ r c, (r < h)%nat → (c < w)%nat →
      ∃ v, glookup ranked r c = Some v ∧
        ((v = -1 ∧ ∀ i, ¬ mask_on (masks res) i r c) ∨
         (∃ i, v = Z.of_nat i ∧ mask_on (masks res) i r c ∧
               ∀ j, (i < j)%nat → ¬ mask_on (masks res) j r c)) ∧
        (∀ i j, (i < j)%nat → mask_on (masks res) i r c →
                mask_on (masks res) j r c → v ≠ Z.of_nat i).
Proof.
  intros Hne Hlen Hms.
  destruct (get_food_mask_spec h w res Hne Hlen Hms) as (ranked & Heq & Hsh & Hpix).
  exists ranked, (filter (fun v => v ≠ -1) (astype_int16 <$> np_unique ranked)).
  split; [done|]. split; [done|].
  intros r c Hr Hc. destruct (Hpix r c Hr Hc) as (v & Hv & Hlw).
  exists v. split; [done|].
  assert (∀ j, mask_on (masks res) j r c → (j < length (masks res))%nat) as Hin.
  { intros j (m & Hm & _). by eapply lookup_lt_Some. }
  destruct Hlw as [[-> Hnone]|(i & Hi & -> & Hon & Hlast)]; split.
  - left. split; [done|]. intros i Hon. apply (Hnone i); [|done].
    specialize (Hin i Hon). lia.
  - intros i j Hij Hon _. exfalso. apply (Hnone i); [|done].
    specialize (Hin i Hon). lia.
  - right. exists i. split; [done|]. split; [done|].
    intros j Hij Hon'. apply (Hlast j); [|done].
    specialize (Hin j Hon'). lia.
  - intros i' j Hij Hon' Honj Heq'. apply Nat2Z.inj in Heq'. subst i'.
    apply (Hlast j); [|done]. specialize (Hin j Honj). lia.
Qed.

Lemma get_food_mask_last_writer_wins_witness :
  ∃ ranked idxs,
    get_food_mask two_overlapping = Ok (ranked, idxs) ∧ has_shape 2 3 ranked ∧
    ∀ r c, (r < 2)%nat → (c < 3)%nat →
      ∃ v, glookup ranked r c = Some v ∧
        ((v = -1 ∧ ∀ i, ¬ mask_on (masks two_overlapping) i r c) ∨
         (∃ i, v = Z.of_nat i ∧ mask_on (masks two_overlapping) i r c ∧
               ∀ j, (i < j)%nat → ¬ mask_on (masks two_overlapping) j r c)) ∧
        (∀ i j, (i < j)%nat → mask_on (masks two_overlapping) i r c →
                mask_on (masks two_overlapping) j r c → v ≠ Z.of_nat i).
Proof.
  apply (get_food_mask_last_writer_wins 2 3 two_overlapping).
  - discriminate.
  - reflexivity.
  - repeat constructor.
Defined.

(** C3, as the code has it.  For a non-empty mask set of at most 32768
    instances, the present-index list is strictly ascending and holds
    exactly the values of the label image other than -1; an instance whose
    mask is covered by later masks is not in it. *)
Theorem get_food_mask_present_indices (h w : nat) (res : results) :
  masks res ≠ [] →
  length (class_names res) = length (masks res) →
  Forall (has_shape h w) (masks res) →
  Z.of_nat (length (masks res)) ≤ 32768 →
  ∃ ranked idxs,
    get_food_mask res = Ok (ranked, idxs) ∧
    StronglySorted Z.lt idxs ∧
    (∀ v, v ∈ idxs ↔ v ≠ -1 ∧ ∃ r c, glookup ranked r c = Some v) ∧
    (∀ i, (∀ r c, mask_on (masks res) i r c →
                  ∃ j, (i < j)%nat ∧ mask_on (masks res) j r c) →
          Z.of_nat i ∉ idxs).
Proof.
  intros Hne Hlen Hms Hsmall.
  destruct (get_food_mask_spec h w res Hne Hlen Hms) as (ranked & Heq & Hsh & Hpix).
  assert (∀ v r c, glookup ranked r c = Some v →
            last_writer (masks res) 0 (length (masks res)) r c (-1) v) as Hlw.
  { intros v r c Hv. destruct (glookup_lt _ _ _ _ _ _ Hsh Hv) as [Hr Hc].
    destruct (Hpix r c Hr Hc) as (v' & Hv' & Hlw). congruence. }
  assert (astype_int16 <$> np_unique ranked = np_unique ranked) as Hcast.
  { rewrite <- (list_fmap_id (np_unique ranked)) at 2.
    apply Forall_fmap_ext_1, Forall_forall. intros v Hv.
    apply elem_of_np_unique in Hv as (r & c & Hv).
    apply astype_int16_small.
    unfold id. destruct (Hlw v r c Hv) as [[-> _]|(i & Hi & -> & _)]; lia. }
  rewrite Hcast in Heq.
  exists ranked, (filter (fun v => v ≠ -1) (np_unique ranked)).
  split; [done|]. split; [apply StronglySorted_filter_lt, np_unique_sorted|].
  split.
  - intros v. by rewrite list_elem_of_filter, elem_of_np_unique.
  - intros i Hcov [_ Hin]%list_elem_of_filter.
    apply elem_of_np_unique in Hin as (r & c & Hv).
    destruct (Hlw _ r c Hv) as [[? _]|(i' & Hi' & Heq' & Hon & Hlast)]; [lia|].
    apply Nat2Z.inj in Heq'. subst i'.
    destruct (Hcov r c Hon) as (j & Hij & Honj).
    apply (Hlast j); [|done]. destruct Honj as (m & Hm & _).
    apply lookup_lt_Some in Hm. lia.
Qed.

Lemma get_food_mask_present_indices_witness :
  ∃ ranked idxs,
    get_food_mask two_overlapping = Ok (ranked, idxs) ∧
    StronglySorted Z.lt idxs ∧
    (∀ v, v ∈ idxs ↔ v ≠ -1 ∧ ∃ r c, glookup ranked r c = Some v) ∧
    (∀ i, (∀ r c, mask_on (masks two_overlapping) i r c →
                  ∃ j, (i < j)%nat ∧ mask_on (masks two_overlapping) j r c) →
          Z.of_nat i ∉ idxs).
Proof.
  apply (get_food_mask_present_indices 2 3 two_overlapping).
  - discriminate.
  - reflexivity.
  - repeat constructor.
  - simpl. lia.
Defined.

(** C3 as stated fails beyond 32768 instances: with 32769 masks set at
    the one pixel of a 1x1 grid the label image holds 32768, which is not
    the background value, and the present-index list does not hold it
    ([int16] has no such value). *)
Lemma get_food_mask_int16_overflow :
  ∃ ranked idxs,
    get_food_mask many_masks = Ok (ranked, idxs) ∧
    glookup ranked 0 0 = Some 32768 ∧ 32768 ≠ -1 ∧ 32768 ∉ idxs.
Proof.
  assert (masks many_masks = replicate (Z.to_nat 32769) [[1]]) as Hm
    by reflexivity.
  assert (length (class_names many_masks) = Z.to_nat 32769) as Hn
    by apply length_replicate.
  destruct (get_food_mask_spec 1 1 many_masks) as (ranked & Heq & Hsh & Hpix).
  - rewrite Hm. intros H. apply (f_equal length) in H.
    rewrite length_replicate in H. cbn [length] in H. lia.
  - rewrite Hn, Hm, length_replicate. reflexivity.
  - rewrite Hm. apply Forall_replicate. repeat constructor.
  - exists ranked, (filter (fun v => v ≠ -1) (astype_int16 <$> np_unique ranked)).
    split; [exact Heq|]. clear Heq.
    destruct (Hpix 0%nat 0%nat) as (v & Hv & Hlw); [lia..|]. clear Hpix.
    rewrite Hm in Hlw. rewrite length_replicate in Hlw. clear Hm Hn.
    assert (∀ i, (i < Z.to_nat 32769)%nat →
              mask_on (replicate (Z.to_nat 32769) [[1]]) i 0 0) as Hon.
    { intros i Hi. exists [[1]]. split; [|reflexivity].
      apply lookup_replicate_2, Hi. }
    assert (v = 32768) as ->.
    { destruct Hlw as [[_ Hnone]|(i & Hi & -> & _ & Hlast)].
      - exfalso. apply (Hnone 0%nat); [lia|]. apply Hon. lia.
      - destruct (decide (i = Z.to_nat 32768)) as [->|Hne]; [lia|].
        exfalso. apply (Hlast (S i)); [lia|]. apply Hon. lia. }
    clear Hlw Hon.
    assert (ranked = [[32768]]) as ->.
    { destruct Hsh as [Hh Hw].
      destruct ranked as [|row [|? ?]]; [discriminate Hh| |discriminate Hh].
      inversion Hw as [|? ? Hrow _]; subst.
      destruct row as [|x [|? ?]]; [discriminate Hrow| |discriminate Hrow].
      unfold glookup in Hv. cbn in Hv. congruence. }
    split; [reflexivity|]. split; [lia|].
    vm_compute. intros H. apply list_elem_of_singleton in H. lia.
Qed.

(** ** [json2results]: the loop and the rectangle path *)

Lemma astype_int64_inject_Z (z : Z) : astype_int64 (inject_Z z) = z.
Proof. unfold astype_int64, inject_Z. simpl. apply Z.quot_1_r. Qed.

Lemma has_shape_slice_assign {A} h w (a : grid A) r0 r1 c0 c1 v :
  has_shape h w a → has_shape h w (slice_assign a r0 r1 c0 c1 v).
Proof.
  intros [Hh Hw]. unfold slice_assign. split; [by rewrite length_imap|].
  apply Forall_lookup. intros i row Hi.
  apply list_lookup_imap_Some in Hi as (row' & Hrow' & ->).
  pose proof (Forall_lookup_1 _ _ _ _ Hw Hrow') as Hlen. simpl in Hlen.
  case_decide; [by rewrite length_imap | done].
Qed.

Lemma glookup_slice_assign {A} h w (a : grid A) r0 r1 c0 c1 v r c old :
  has_shape h w a → glookup a r c = Some old →
  glookup (slice_assign a r0 r1 c0 c1 v) r c =
    Some (if decide ((slice_bound r0 h ≤ r < slice_bound r1 h)%nat ∧
                     (slice_bound c0 w ≤ c < slice_bound c1 w)%nat)
          then v else old).
Proof.
  intros [Hh Hw] Hl. unfold glookup, slice_assign in *.
  rewrite list_lookup_imap.
  destruct (a !! r) as [row|] eqn:Hrow; simpl in *; [|done].
  pose proof (Forall_lookup_1 _ _ _ _ Hw Hrow) as Hlen. simpl in Hlen.
  rewrite Hh, Hlen.
  destruct (decide (slice_bound r0 h ≤ r < slice_bound r1 h)%nat) as [Hr|Hr].
  - rewrite list_lookup_imap, Hl. simpl.
    destruct (decide (slice_bound c0 w ≤ c < slice_bound c1 w)%nat).
    + by rewrite decide_True.
    + rewrite decide_False; [done | tauto].
  - rewrite Hl. rewrite decide_False; [done | tauto].
Qed.

(** A box with non-negative corners is clipped to the grid. *)
Lemma glookup_rectangle h w (row0 row1 col0 col1 : Z) r c :
  0 ≤ row0 → 0 ≤ row1 → 0 ≤ col0 → 0 ≤ col1 →
  (r < h)%nat → (c < w)%nat →
  glookup (slice_assign (full h w 0) row0 row1 col0 col1 1) r c =
    Some (if decide (row0 ≤ Z.of_nat r < row1 ∧ col0 ≤ Z.of_nat c < col1)
          then 1 else 0).
Proof.
  intros Hr0 Hr1 Hc0 Hc1 Hr Hc.
  rewrite (glookup_slice_assign h w _ _ _ _ _ _ r c 0)
    by (apply has_shape_full || by apply glookup_full).
  f_equal. apply decide_ext. unfold slice_bound.
  destruct (Z.ltb_spec row0 0), (Z.ltb_spec row1 0),
           (Z.ltb_spec col0 0), (Z.ltb_spec col1 0); lia.
Qed.

Section decoder_facts.
Variable dp : list Z → list Z → nat * nat → list (Z * Z).

Lemma shape_mask_rectangle (s : annotation) h w col0 row0 col1 row1 :
  shape_type s = "rectangle" →
  points s = rectangle_points col0 row0 col1 row1 →
  shape_mask dp s (h, w) =
    Ok (slice_assign (full h w 0) row0 row1 col0 col1 1).
Proof.
  intros Hk Hp. unfold shape_mask, rectangle_points in *. rewrite Hp.
  unfold np_array. rewrite decide_True by (repeat constructor).
  cbn [mbind result_bind]. rewrite decide_True by done.
  unfold getitem2, getitem, gmap.
  cbn [fmap list_fmap lookup list_lookup mbind result_bind fst snd].
  by rewrite !astype_int64_inject_Z.
Qed.

Lemma shape_mask_as_polygon (s : annotation) shape_ :
  shape_mask dp (as_polygon s) shape_ = shape_mask dp s shape_.
Proof.
  unfold as_polygon. destruct (decide (shape_type s = "rectangle")) as [|Hk]; [done|].
  unfold shape_mask. cbn [points shape_type].
  destruct (np_array (points s)) as [pts|e]; [|done].
  cbn [mbind result_bind].
  rewrite (decide_False (P := shape_type s = "rectangle")) by done.
  by rewrite decide_False.
Qed.

Lemma json2results_loop_ok shape_ (todo : list annotation) (ms : list (grid Z)) :
  Forall2 (fun s m => shape_mask dp s shape_ = Ok m) todo ms →
  ∀ acc, json2results_loop dp todo shape_ acc =
    Ok {| class_names := class_names acc ++ (label <$> todo);
          scores := scores acc ++ (ann_scores <$> todo);
          masks := masks acc ++ ms |}.
Proof.
  induction 1 as [|s m todo ms Hs _ IH]; intros acc.
  - cbn [json2results_loop fmap list_fmap]. rewrite !app_nil_r. by destruct acc.
  - cbn [json2results_loop]. rewrite Hs. cbn [mbind result_bind].
    rewrite IH. cbn [class_names scores masks fmap list_fmap].
    by rewrite <- !app_assoc.
Qed.

Lemma json2results_loop_as_polygon shape_ (todo : list annotation) :
  ∀ acc, json2results_loop dp (as_polygon <$> todo) shape_ acc =
         json2results_loop dp todo shape_ acc.
Proof.
  induction todo as [|s todo IH]; intros acc; [done|].
  cbn [fmap list_fmap json2results_loop].
  rewrite shape_mask_as_polygon.
  assert (label (as_polygon s) = label s ∧
          ann_scores (as_polygon s) = ann_scores s) as [-> ->].
  { unfold as_polygon. by case_decide. }
  destruct (shape_mask dp s shape_) as [m|e]; [|done].
  cbn [mbind result_bind]. apply IH.
Qed.

Lemma json2results_ok (data : document) shape_ :
  (∀ j s, shapes data !! j = Some s → ∃ m, shape_mask dp s shape_ = Ok m) →
  ∃ ms,
    json2results dp data shape_ =
      Ok {| class_names := label <$> shapes data;
            scores := ann_scores <$> shapes data;
            masks := ms |} ∧
    Forall2 (fun s m => shape_mask dp s shape_ = Ok m) (shapes data) ms.
Proof.
  intros Hall.
  assert (∃ ms, Forall2 (fun s m => shape_mask dp s shape_ = Ok m)
                  (shapes data) ms) as [ms Hms].
  { apply Forall_lookup in Hall.
    induction Hall as [|s l [m Hm] _ [ms IH]].
    - by exists [].
    - exists (m :: ms). by constructor. }
  exists ms. split; [|done]. unfold json2results.
  by rewrite (json2results_loop_ok _ _ _ Hms).
Qed.

(** The decoded mask of a rectangle annotation with non-negative corners,
    in a document whose other annotations decode. *)
Lemma json2results_rectangle (data : document) h w i (s : annotation)
    col0 row0 col1 row1 :
  shapes data !! i = Some s →
  shape_type s = "rectangle" →
  points s = rectangle_points col0 row0 col1 row1 →
  0 ≤ col0 → 0 ≤ row0 → 0 ≤ col1 → 0 ≤ row1 →
  (∀ j s', j ≠ i → shapes data !! j = Some s' →
           ∃ m', shape_mask dp s' (h, w) = Ok m') →
  ∃ res m,
    json2results dp data (h, w) = Ok res ∧
    masks res !! i = Some m ∧ has_shape h w m ∧
    ∀ r c, (r < h)%nat → (c < w)%nat →
      glookup m r c =
        Some (if decide (row0 ≤ Z.of_nat r < row1 ∧ col0 ≤ Z.of_nat c < col1)
              then 1 else 0).
Proof.
  intros Hi Hk Hp Hc0 Hr0 Hc1 Hr1 Hothers.
  pose proof (shape_mask_rectangle s h w _ _ _ _ Hk Hp) as Hs.
  destruct (json2results_ok data (h, w)) as (ms & Hres & Hms).
  { intros j s' Hj. destruct (decide (j = i)) as [->|Hne].
    - rewrite Hi in Hj. injection Hj as <-. eauto.
    - eauto. }
  destruct (Forall2_lookup_l _ _ _ _ _ Hms Hi) as (m & Hm & Hsm).
  rewrite Hs in Hsm. injection Hsm as <-.
  eexists _, _. split; [exact Hres|]. split; [exact Hm|]. split.
  - apply has_shape_slice_assign, has_shape_full.
  - intros r c Hr Hc. by apply glookup_rectangle.
Qed.

End decoder_facts.

(** ** The decoder with the cast left open *)

Lemma np_array_Ok (pts a : list (list Q)) : np_array pts = Ok a → a = pts.
Proof.
  unfold np_array. destruct pts as [|p pts]; [by intros [= <-]|].
  case_decide; [by intros [= <-] | discriminate].
Qed.


Section cast_facts.
Variable cast : Q → Z.
Variable dp : list Z → list Z → nat * nat → list (Z * Z).



Hypothesis Hcast : int64_cast cast.

Lemma gmap_cast_int64 (pts : list (list Q)) :
  Forall (Forall (fun q => int64 (astype_int64 q))) pts →
  gmap cast pts = gmap astype_int64 pts.
Proof.
  intros Hall. unfold gmap. apply Forall_fmap_ext_1.
  eapply Forall_impl; [exact Hall|]. intros row Hrow. simpl.
  apply Forall_fmap_ext_1. eapply Forall_impl; [exact Hrow|].
  intros q Hq. by apply Hcast.
Qed.

(** On coordinates inside the range the decoder is [json2results]. *)
Lemma shape_mask_with_int64 (s : annotation) shape_ :
  int64_points s → shape_mask_with cast dp s shape_ = shape_mask dp s shape_.
Proof.
  intros Hs. unfold shape_mask_with, shape_mask.
  destruct (np_array (points s)) as [pts|e] eqn:Hpts; [|done].
  apply np_array_Ok in Hpts as ->. cbn [mbind result_bind].
  by rewrite (gmap_cast_int64 _ Hs).
Qed.

Lemma json2results_loop_with_int64 shape_ (todo : list annotation) :
  Forall int64_points todo →
  ∀ acc, json2results_loop_with cast dp todo shape_ acc =
         json2results_loop dp todo shape_ acc.
Proof.
  induction 1 as [|s todo Hs _ IH]; intros acc; [done|].
  cbn [json2results_loop_with json2results_loop].
  rewrite (shape_mask_with_int64 s shape_ Hs).
  destruct (shape_mask dp s shape_) as [m|e]; [|done].
  cbn [mbind result_bind]. apply IH.
Qed.

Lemma json2results_with_int64 (data : document) shape_ :
  Forall int64_points (shapes data) →
  json2results_with cast dp data shape_ = json2results dp data shape_.
Proof. intros Hall. by apply json2results_loop_with_int64. Qed.

Lemma json2results_with_single_int64 (s : annotation) shape_ :
  int64_points s →
  json2results_with cast dp {| shapes := [s] |} shape_ =
  json2results dp {| shapes := [s] |} shape_.
Proof. intros Hs. apply json2results_with_int64. by repeat constructor. Qed.


End cast_facts.

(** The cast that wraps is the truncation inside the range. *)
Lemma int64_cast_wrap : int64_cast astype_int64_wrap.
Proof.
  intros q [Hlo Hhi]. unfold astype_int64_wrap, wrap_int64.
  rewrite Z.mod_small by lia. lia.
Qed.

(** At the truncation the open decoder is [json2results], on every
    document. *)
Lemma json2results_with_astype_int64
    (dp : list Z → list Z → nat * nat → list (Z * Z))
    (data : document) shape_ :
  json2results_with astype_int64 dp data shape_ = json2results dp data shape_.
Proof.
  unfold json2results_with, json2results.
  generalize {| class_names := []; scores := []; masks := [] |}.
  induction (shapes data) as [|s todo IH]; intros acc; [done|].
  cbn [json2results_loop_with json2results_loop].
  change (shape_mask_with astype_int64 dp s shape_) with (shape_mask dp s shape_).
  destruct (shape_mask dp s shape_) as [m|e]; [|done].
  cbn [mbind result_bind]. apply IH.
Qed.

(** C5, as the code has it.  Decoding a document without shapes gives
    no names, no scores and no masks; ranking a result without masks does
    not return a label image: [get_food_mask] reads the grid from the first
    mask and raises [IndexError]. *)
Theorem empty_annotation_set
    (dp : list Z → list Z → nat * nat → list (Z * Z)) (shape_ : nat * nat)
    (names : list string) (scs : list (option float)) :
  json2results dp {| shapes := [] |} shape_ = Ok empty_results ∧
  get_food_mask {| class_names := names; scores := scs; masks := [] |}
    = Raise IndexError.
Proof. split; reflexivity. Qed.

(** C5 as stated fails: the result of decoding an empty document makes
    [get_food_mask] raise. *)
Lemma empty_mask_set_raises :
  ∃ res, json2results pnpoly_polygon {| shapes := [] |} (2, 3)%nat = Ok res ∧
         masks res = [] ∧
         get_food_mask res = Raise IndexError.
Proof. exists empty_results. repeat split. Qed.

(** C6, as the code has it.  The decoder knows one kind, "rectangle";
    every other [shape_type], "polygon" or not, takes the polygon path:
    the result, an error included, is that of the document with those
    kinds replaced by "polygon". *)
Theorem json2results_unknown_kind
    (dp : list Z → list Z → nat * nat → list (Z * Z))
    (data : document) (shape_ : nat * nat) :
  json2results dp {| shapes := as_polygon <$> shapes data |} shape_ =
  json2results dp data shape_.
Proof. unfold json2results. apply json2results_loop_as_polygon. Qed.

(** C6 as stated fails: a "circle" is decoded, and as a polygon. *)
Lemma json2results_circle_is_decoded :
  shape_type (polygon_annotation "circle" 1 1 3 3) ≠ "rectangle" ∧
  shape_type (polygon_annotation "circle" 1 1 3 3) ≠ "polygon" ∧
  json2results pnpoly_polygon
    {| shapes := [polygon_annotation "circle" 1 1 3 3] |} (5, 5)%nat =
  json2results pnpoly_polygon
    {| shapes := [polygon_annotation "polygon" 1 1 3 3] |} (5, 5)%nat ∧
  json2results pnpoly_polygon
    {| shapes := [polygon_annotation "circle" 1 1 3 3] |} (5, 5)%nat =
  Ok {| class_names := ["plate"]; scores := [None];
        masks := [[[0; 0; 0; 0; 0]; [0; 1; 1; 1; 0]; [0; 1; 1; 1; 0];
                   [0; 1; 1; 1; 0]; [0; 0; 0; 0; 0]]] |}.
Proof.
  split; [discriminate|]. split; [discriminate|].
  split; vm_compute; reflexivity.
Qed.

(** The three lists of a returned result run parallel to the shapes of
    the document: labels and scores in input order, an absent score kept
    as [None], one mask per shape. *)
Lemma json2results_loop_parallel
    (dp : list Z → list Z → nat * nat → list (Z * Z)) (shape_ : nat * nat)
    (todo : list annotation) :
  ∀ acc res, json2results_loop dp todo shape_ acc = Ok res →
    class_names res = class_names acc ++ (label <$> todo) ∧
    scores res = scores acc ++ (ann_scores <$> todo) ∧
    length (masks res) = (length (masks acc) + length todo)%nat.
Proof.
  induction todo as [|s todo IH]; intros acc res Hres.
  - cbn in Hres. injection Hres as <-. rewrite !app_nil_r. cbn.
    repeat split; lia.
  - cbn [json2results_loop] in Hres.
    destruct (shape_mask dp s shape_) as [m|e]; [|discriminate Hres].
    cbn [mbind result_bind] in Hres.
    destruct (IH _ _ Hres) as (Hn & Hs & Hm).
    cbn [class_names scores masks] in Hn, Hs, Hm.
    rewrite Hn, Hs, Hm, length_app, <- !app_assoc. cbn.
    repeat split; lia.
Qed.

Theorem json2results_parallel_arrays
    (dp : list Z → list Z → nat * nat → list (Z * Z))
    (data : document) (shape_ : nat * nat) (res : results) :
  json2results dp data shape_ = Ok res →
  class_names res = label <$> shapes data ∧
  scores res = ann_scores <$> shapes data ∧
  length (masks res) = length (shapes data).
Proof.
  intros Hres. apply json2results_loop_parallel in Hres. exact Hres.
Qed.

Lemma json2results_parallel_arrays_witness :
  ∃ res,
    json2results pnpoly_polygon
      {| shapes := [rectangle_annotation 1 1 3 3;
                    polygon_annotation "polygon" 1 1 3 3] |} (5, 5)%nat = Ok res ∧
    class_names res = ["plate"; "plate"] ∧
    scores res = [None; None] ∧
    length (masks res) = 2%nat.
Proof.
  eexists. split; [vm_compute; reflexivity|].
  apply (json2results_parallel_arrays pnpoly_polygon
           {| shapes := [rectangle_annotation 1 1 3 3;
                         polygon_annotation "polygon" 1 1 3 3] |} (5, 5)%nat).
  vm_compute. reflexivity.
Defined.

(** C7. A rectangle annotation with integer corners inside the grid is
    decoded to the mask that is 1 on rows [row0, row1) and columns
    [col0, col1) and 0 elsewhere. *)
Theorem json2results_rectangle_mask
    (dp : list Z → list Z → nat * nat → list (Z * Z))
    (data : document) (h w i : nat) (s : annotation) (col0 row0 col1 row1 : Z) :
  shapes data !! i = Some s →
  shape_type s = "rectangle" →
  points s = rectangle_points col0 row0 col1 row1 →
  0 ≤ col0 ≤ Z.of_nat w → 0 ≤ col1 ≤ Z.of_nat w →
  0 ≤ row0 ≤ Z.of_nat h → 0 ≤ row1 ≤ Z.of_nat h →
  (∀ j s', j ≠ i → shapes data !! j = Some s' →
           ∃ m', shape_mask dp s' (h, w) = Ok m') →
  ∃ res m,
    json2results dp data (h, w) = Ok res ∧
    masks res !! i = Some m ∧ has_shape h w m ∧
    ∀ r c, (r < h)%nat → (c < w)%nat →
      glookup m r c =
        Some (if decide (row0 ≤ Z.of_nat r < row1 ∧ col0 ≤ Z.of_nat c < col1)
              then 1 else 0).
Proof.
  intros Hi Hk Hp [Hc0 _] [Hc1 _] [Hr0 _] [Hr1 _] Hothers.
  by eapply json2results_rectangle.
Qed.

Lemma json2results_rectangle_mask_witness :
  ∃ res m,
    json2results pnpoly_polygon {| shapes := [rectangle_annotation 1 1 3 3] |}
      (5, 5)%nat = Ok res ∧
    masks res !! 0%nat = Some m ∧ has_shape 5 5 m ∧
    ∀ r c, (r < 5)%nat → (c < 5)%nat →
      glookup m r c =
        Some (if decide (1 ≤ Z.of_nat r < 3 ∧ 1 ≤ Z.of_nat c < 3)
              then 1 else 0).
Proof.
  apply (json2results_rectangle_mask pnpoly_polygon
           {| shapes := [rectangle_annotation 1 1 3 3] |} 5 5 0
           (rectangle_annotation 1 1 3 3) 1 1 3 3);
    try reflexivity; try lia.
  intros [|j] s' Hj Hs'; [done|]. destruct j; discriminate Hs'.
Defined.

(** The example of C7 in full. *)
Example rectangle_1133_on_5x5 :
  json2results pnpoly_polygon {| shapes := [rectangle_annotation 1 1 3 3] |}
    (5, 5)%nat =
  Ok {| class_names := ["plate"]; scores := [None];
        masks := [[[0; 0; 0; 0; 0]; [0; 1; 1; 0; 0]; [0; 1; 1; 0; 0];
                   [0; 0; 0; 0; 0]; [0; 0; 0; 0; 0]]] |}.
Proof. vm_compute. reflexivity. Qed.




(** The clipped rectangle in full. *)
Example rectangle_2197_on_4x5 :
  json2results pnpoly_polygon {| shapes := [rectangle_annotation 2 1 9 7] |}
    (4, 5)%nat =
  Ok {| class_names := ["plate"]; scores := [None];
        masks := [[[0; 0; 0; 0; 0]; [0; 0; 1; 1; 1]; [0; 0; 1; 1; 1];
                   [0; 0; 1; 1; 1]]] |}.
Proof. vm_compute. reflexivity. Qed.

(** ** [poly2mask] and the polygon path *)

Lemma grid_ext {A} h w (a b : grid A) :
  has_shape h w a → has_shape h w b →
  (∀ r c, (r < h)%nat → (c < w)%nat → glookup a r c = glookup b r c) →
  a = b.
Proof.
  intros [Ha Hwa] [Hb Hwb] Hpix. apply list_eq. intros r.
  destruct (decide (r < h)%nat) as [Hr|Hr].
  - destruct (lookup_lt_is_Some_2 a r) as [ra Hra]; [lia|].
    destruct (lookup_lt_is_Some_2 b r) as [rb Hrb]; [lia|].
    rewrite Hra, Hrb. f_equal. apply list_eq. intros c.
    pose proof (Forall_lookup_1 _ _ _ _ Hwa Hra) as Hla.
    pose proof (Forall_lookup_1 _ _ _ _ Hwb Hrb) as Hlb. simpl in Hla, Hlb.
    destruct (decide (c < w)%nat) as [Hc|Hc].
    + specialize (Hpix r c Hr Hc). unfold glookup in Hpix.
      by rewrite Hra, Hrb in Hpix.
    + rewrite !lookup_ge_None_2; [done|lia..].
  - rewrite !lookup_ge_None_2; [done|lia..].
Qed.

Lemma norm_index_in_range (i : Z) (len : nat) :
  0 ≤ i < Z.of_nat len → norm_index i len = Ok (Z.to_nat i).
Proof. intros Hi. unfold norm_index. by rewrite decide_True. Qed.

Lemma has_shape_alter_insert {A} h w (a : grid A) r c (v : A) :
  has_shape h w a →
  has_shape h w (alter (fun row => <[c := v]> row) r a).
Proof.
  intros [Hh Hw]. split; [by rewrite length_alter|].
  apply Forall_lookup. intros i row Hi. rewrite list_lookup_alter in Hi.
  destruct (decide (r = i)) as [->|Hne].
  - destruct (a !! i) as [row'|] eqn:Hrow; simpl in Hi; [|done].
    injection Hi as <-. rewrite length_insert.
    apply (Forall_lookup_1 _ _ _ _ Hw Hrow).
  - apply (Forall_lookup_1 _ _ _ _ Hw Hi).
Qed.

Lemma glookup_alter_insert {A} (a : grid A) r' c' (v : A) r c old :
  glookup a r c = Some old →
  glookup (alter (fun row => <[c' := v]> row) r' a) r c =
    Some (if decide (r = r' ∧ c = c') then v else old).
Proof.
  intros Hl. unfold glookup in *. rewrite list_lookup_alter.
  destruct (decide (r' = r)) as [->|Hne].
  - destruct (a !! r) as [row|]; simpl in *; [|done].
    rewrite list_lookup_insert.
    destruct (decide (c' = c ∧ (c' < length row)%nat)) as [[-> Hlt]|Hn].
    + by rewrite decide_True.
    + rewrite Hl. rewrite decide_False; [done|]. intros [_ ->].
      apply Hn. split; [done|]. by eapply lookup_lt_Some.
  - rewrite Hl. rewrite decide_False; [done|]. intros [-> _]. done.
Qed.

(** Index arrays that stay inside the grid: the assignment returns, and it
    sets exactly the listed pixels. *)
Lemma fancy_assign_spec {A} h w (idx : list (Z * Z)) (v : A) :
  Forall (fun p => 0 ≤ p.1 < Z.of_nat h ∧ 0 ≤ p.2 < Z.of_nat w) idx →
  ∀ a, has_shape h w a →
  ∃ a', fancy_assign a idx v = Ok a' ∧ has_shape h w a' ∧
    ∀ r c old, glookup a r c = Some old →
      glookup a' r c =
        Some (if decide ((Z.of_nat r, Z.of_nat c) ∈ idx) then v else old).
Proof.
  induction 1 as [|[r0 c0] idx [Hr0 Hc0] _ IH]; intros a Ha.
  - exists a. split; [done|]. split; [done|]. intros r c old Hl.
    rewrite decide_False; [done | apply not_elem_of_nil].
  - simpl in Hr0, Hc0. cbn [fancy_assign].
    rewrite (shape_eq h w a Ha) by lia. cbn [fst snd].
    rewrite !norm_index_in_range by done. cbn [mbind result_bind].
    destruct (IH (alter (fun row => <[Z.to_nat c0 := v]> row) (Z.to_nat r0) a))
      as (a' & Heq & Hsh & Hpix); [by apply has_shape_alter_insert|].
    exists a'. split; [done|]. split; [done|]. intros r c old Hl.
    rewrite (Hpix r c _ (glookup_alter_insert a _ _ v r c old Hl)). f_equal.
    destruct (decide (r = Z.to_nat r0 ∧ c = Z.to_nat c0)) as [[-> ->]|Hne].
    + rewrite !Z2Nat.id by lia.
      rewrite (decide_True (P := (r0, c0) ∈ (r0, c0) :: idx)) by (apply elem_of_cons; by left).
      by case_decide.
    + apply decide_ext. rewrite elem_of_cons. split; [tauto|].
      intros [[= <- <-]|?]; [|done]. exfalso. apply Hne. lia.
Qed.

Section polygon_path.
Variable dp : list Z → list Z → nat * nat → list (Z * Z).

Lemma shape_mask_polygon (kind : string) h w col0 row0 col1 row1 :
  kind ≠ "rectangle" →
  shape_mask dp (polygon_annotation kind col0 row0 col1 row1) (h, w) =
    mask ← poly2mask dp [row0; row0; row1; row1] [col0; col1; col1; col0] (h, w);
    Ok (gmap (fun b : bool => if b then 1 else 0) mask).
Proof.
  intros Hk. unfold shape_mask, polygon_annotation, polygon_points.
  cbn [points shape_type]. unfold np_array.
  rewrite decide_True by (repeat constructor).
  cbn [mbind result_bind]. rewrite decide_False by done.
  unfold column, getitem, gmap.
  cbn [fmap list_fmap traverse lookup list_lookup mbind result_bind].
  by rewrite !astype_int64_inject_Z.
Qed.

(** The mask of the polygon path, for a rasteriser that stays in the grid. *)
Lemma polygon_path_mask (kind : string) h w col0 row0 col1 row1 :
  kind ≠ "rectangle" →
  Forall (fun p => 0 ≤ p.1 < Z.of_nat h ∧ 0 ≤ p.2 < Z.of_nat w)
    (dp [row0; row0; row1; row1] [col0; col1; col1; col0] (h, w)) →
  ∃ mp,
    shape_mask dp (polygon_annotation kind col0 row0 col1 row1) (h, w) = Ok mp ∧
    has_shape h w mp ∧
    ∀ r c, (r < h)%nat → (c < w)%nat →
      glookup mp r c =
        Some (if decide ((Z.of_nat r, Z.of_nat c) ∈
                           dp [row0; row0; row1; row1] [col0; col1; col1; col0] (h, w))
              then 1 else 0).
Proof.
  intros Hk Hin. rewrite shape_mask_polygon by done. unfold poly2mask.
  cbn [fst snd].
  destruct (fancy_assign_spec h w _ true Hin (full h w false))
    as (mask & -> & Hsh & Hpix); [apply has_shape_full|].
  cbn [mbind result_bind]. eexists. split; [done|].
  split; [by apply has_shape_gmap|].
  intros r c Hr Hc. rewrite glookup_gmap.
  rewrite (Hpix r c false) by (by apply glookup_full).
  simpl. by case_decide.
Qed.

End polygon_path.

(** C8, as the code has it.  For a rectangle with integer corners inside
    the grid, the polygon path marks exactly the pixels that the rasteriser
    returns for the four corners; its mask is the mask of the rectangle
    path if and only if those pixels are the rows [row0, row1) and columns
    [col0, col1).  With a rasteriser that fills the box with its boundary,
    rows row0 to row1 and columns col0 to col1 as far as they lie in the
    grid, every pixel of the grid in row row1 or in column col1 of the box
    is marked by the polygon path and not by the rectangle path. *)
Theorem polygon_path_vs_rectangle_path
    (dp : list Z → list Z → nat * nat → list (Z * Z))
    (h w : nat) (col0 row0 col1 row1 : Z) :
  0 ≤ col0 ≤ col1 → col1 ≤ Z.of_nat w →
  0 ≤ row0 ≤ row1 → row1 ≤ Z.of_nat h →
  Forall (fun p => 0 ≤ p.1 < Z.of_nat h ∧ 0 ≤ p.2 < Z.of_nat w)
    (dp [row0; row0; row1; row1] [col0; col1; col1; col0] (h, w)) →
  ∃ mr mp,
    json2results dp {| shapes := [rectangle_annotation col0 row0 col1 row1] |}
      (h, w) =
      Ok {| class_names := ["plate"]; scores := [None]; masks := [mr] |} ∧
    json2results dp
      {| shapes := [polygon_annotation "polygon" col0 row0 col1 row1] |} (h, w) =
      Ok {| class_names := ["plate"]; scores := [None]; masks := [mp] |} ∧
    (∀ r c, (r < h)%nat → (c < w)%nat →
       glookup mp r c =
         Some (if decide ((Z.of_nat r, Z.of_nat c) ∈
                            dp [row0; row0; row1; row1] [col0; col1; col1; col0] (h, w))
               then 1 else 0)) ∧
    (mp = mr ↔
     ∀ r c, (r < h)%nat → (c < w)%nat →
       ((Z.of_nat r, Z.of_nat c) ∈
          dp [row0; row0; row1; row1] [col0; col1; col1; col0] (h, w)
        ↔ row0 ≤ Z.of_nat r < row1 ∧ col0 ≤ Z.of_nat c < col1)) ∧
    ((∀ r c, (r < h)%nat → (c < w)%nat →
        ((Z.of_nat r, Z.of_nat c) ∈
           dp [row0; row0; row1; row1] [col0; col1; col1; col0] (h, w)
         ↔ row0 ≤ Z.of_nat r ≤ row1 ∧ col0 ≤ Z.of_nat c ≤ col1)) →
     ∀ r c, (r < h)%nat → (c < w)%nat →
       row0 ≤ Z.of_nat r ≤ row1 → col0 ≤ Z.of_nat c ≤ col1 →
       Z.of_nat r = row1 ∨ Z.of_nat c = col1 →
       glookup mp r c = Some 1 ∧ glookup mr r c = Some 0).
Proof.
  intros Hc Hcw Hr Hrh Hin.
  destruct (polygon_path_mask dp "polygon" h w col0 row0 col1 row1)
    as (mp & Hmp & Hshp & Hpixp); [done|done|].
  pose proof (shape_mask_rectangle dp (rectangle_annotation col0 row0 col1 row1)
                h w col0 row0 col1 row1 eq_refl eq_refl) as Hmr.
  assert (∀ r c, (r < h)%nat → (c < w)%nat →
            glookup (slice_assign (full h w 0) row0 row1 col0 col1 1) r c =
              Some (if decide (row0 ≤ Z.of_nat r < row1 ∧ col0 ≤ Z.of_nat c < col1)
                    then 1 else 0)) as Hpixr.
  { intros r c Hr' Hc'. apply glookup_rectangle; lia. }
  exists (slice_assign (full h w 0) row0 row1 col0 col1 1), mp.
  split; [|split; [|split; [|split]]].
  - unfold json2results. cbn [shapes json2results_loop]. by rewrite Hmr.
  - unfold json2results. cbn [shapes json2results_loop]. by rewrite Hmp.
  - done.
  - split.
    + intros -> r c Hr' Hc'.
      pose proof (Hpixp r c Hr' Hc') as H1. rewrite (Hpixr r c Hr' Hc') in H1.
      repeat case_decide; try done; by injection H1.
    + intros Hiff. apply (grid_ext h w); [done| |].
      * apply has_shape_slice_assign, has_shape_full.
      * intros r c Hr' Hc'. rewrite Hpixp, Hpixr by done. f_equal.
        apply decide_ext, Hiff; done.
  - intros Hbox r c Hr' Hc' Hrb Hcb Hedge.
    rewrite Hpixp, Hpixr by done. split.
    + rewrite decide_True; [done|]. by apply Hbox.
    + rewrite decide_False; [done|]. lia.
Qed.

Lemma polygon_path_vs_rectangle_path_witness :
  ∃ mr mp,
    json2results pnpoly_polygon {| shapes := [rectangle_annotation 1 1 3 3] |}
      (5, 5)%nat =
      Ok {| class_names := ["plate"]; scores := [None]; masks := [mr] |} ∧
    json2results pnpoly_polygon
      {| shapes := [polygon_annotation "polygon" 1 1 3 3] |} (5, 5)%nat =
      Ok {| class_names := ["plate"]; scores := [None]; masks := [mp] |} ∧
    (∀ r c, (r < 5)%nat → (c < 5)%nat →
       glookup mp r c =
         Some (if decide ((Z.of_nat r, Z.of_nat c) ∈
                            pnpoly_polygon [1; 1; 3; 3] [1; 3; 3; 1] (5, 5)%nat)
               then 1 else 0)) ∧
    (mp = mr ↔
     ∀ r c, (r < 5)%nat → (c < 5)%nat →
       ((Z.of_nat r, Z.of_nat c) ∈
          pnpoly_polygon [1; 1; 3; 3] [1; 3; 3; 1] (5, 5)%nat
        ↔ 1 ≤ Z.of_nat r < 3 ∧ 1 ≤ Z.of_nat c < 3)) ∧
    ((∀ r c, (r < 5)%nat → (c < 5)%nat →
        ((Z.of_nat r, Z.of_nat c) ∈
           pnpoly_polygon [1; 1; 3; 3] [1; 3; 3; 1] (5, 5)%nat
         ↔ 1 ≤ Z.of_nat r ≤ 3 ∧ 1 ≤ Z.of_nat c ≤ 3)) →
     ∀ r c, (r < 5)%nat → (c < 5)%nat →
       1 ≤ Z.of_nat r ≤ 3 → 1 ≤ Z.of_nat c ≤ 3 →
       Z.of_nat r = 3 ∨ Z.of_nat c = 3 →
       glookup mp r c = Some 1 ∧ glookup mr r c = Some 0).
Proof.
  apply (polygon_path_vs_rectangle_path pnpoly_polygon 5 5 1 1 3 3);
    try lia.
  apply (bool_decide_unpack _). vm_compute. exact I.
Defined.

(** C8 as stated fails with a rasteriser that fills the boundary: for the
    corners (1,1)-(3,3) on a 5x5 grid the polygon path also marks row 3 and
    column 3, which the rectangle path leaves out. *)
Lemma polygon_path_fills_the_boundary :
  json2results pnpoly_polygon {| shapes := [rectangle_annotation 1 1 3 3] |}
    (5, 5)%nat =
    Ok {| class_names := ["plate"]; scores := [None];
          masks := [[[0; 0; 0; 0; 0]; [0; 1; 1; 0; 0]; [0; 1; 1; 0; 0];
                     [0; 0; 0; 0; 0]; [0; 0; 0; 0; 0]]] |} ∧
  json2results pnpoly_polygon
    {| shapes := [polygon_annotation "polygon" 1 1 3 3] |} (5, 5)%nat =
    Ok {| class_names := ["plate"]; scores := [None];
          masks := [[[0; 0; 0; 0; 0]; [0; 1; 1; 1; 0]; [0; 1; 1; 1; 0];
                     [0; 1; 1; 1; 0]; [0; 0; 0; 0; 0]]] |}.
Proof. split; vm_compute; reflexivity. Qed.

(** The rasteriser fills the box (1,1)-(3,3) with its boundary. *)
Example pnpoly_polygon_fills_the_box :
  ∀ r c, (r < 5)%nat → (c < 5)%nat →
    ((Z.of_nat r, Z.of_nat c) ∈
       pnpoly_polygon [1; 1; 3; 3] [1; 3; 3; 1] (5, 5)%nat
     ↔ 1 ≤ Z.of_nat r ≤ 3 ∧ 1 ≤ Z.of_nat c ≤ 3).
Proof.
  intros r c Hr Hc.
  destruct r as [|[|[|[|[|r]]]]]; [| | | | |lia];
    (destruct c as [|[|[|[|[|c]]]]]; [| | | | |lia]);
    apply (bool_decide_unpack _); vm_compute; exact I.
Qed.

(** The rasteriser on the triangle with vertex rows 1, 2, 8 and columns
    1, 7, 4 in a 10x10 image: the vertices (1,1), (2,7), (8,4) and the edge
    pixels are filled. *)
Example pnpoly_polygon_triangle :
  poly2mask pnpoly_polygon [1; 2; 8] [1; 7; 4] (10, 10)%nat =
  Ok ((fun row : list Z => (fun v => bool_decide (v = 1)) <$> row) <$>
      [[0; 0; 0; 0; 0; 0; 0; 0; 0; 0];
       [0; 1; 0; 0; 0; 0; 0; 0; 0; 0];
       [0; 0; 1; 1; 1; 1; 1; 1; 0; 0];
       [0; 0; 1; 1; 1; 1; 1; 0; 0; 0];
       [0; 0; 0; 1; 1; 1; 1; 0; 0; 0];
       [0; 0; 0; 1; 1; 1; 0; 0; 0; 0];
       [0; 0; 0; 0; 1; 1; 0; 0; 0; 0];
       [0; 0; 0; 0; 1; 0; 0; 0; 0; 0];
       [0; 0; 0; 0; 1; 0; 0; 0; 0; 0];
       [0; 0; 0; 0; 0; 0; 0; 0; 0; 0]]).
Proof. vm_compute. reflexivity. Qed.

(** ** Colour assembly *)

Lemma uint8_sub_255 (rgb : Z) : uint8_sub rgb 255 = (rgb + 1) mod 256.
Proof.
  unfold uint8_sub. replace (rgb - 255) with (rgb + 1 + (-1) * 256) by lia.
  by rewrite Z.mod_add.
Qed.

(** All 256 channel values, one by one. *)
Lemma color_value_range (rgb : Z) :
  0 ≤ rgb ≤ 255 → in_unit_interval (color_value rgb) = true.
Proof.
  intros Hrgb.
  assert (forallb (fun v => in_unit_interval (color_value v)) (seqZ 0 256) = true)
    as Hall by (vm_compute; reflexivity).
  rewrite forallb_forall in Hall. apply Hall.
  apply list_elem_of_In, elem_of_seqZ. lia.
Qed.

Lemma elem_of_boolean_index {A} h w (a : grid A) (m : grid bool) :
  has_shape h w a → has_shape h w m →
  ∃ sel, boolean_index a m = Ok sel ∧
    ∀ x, x ∈ sel ↔ ∃ r c, glookup m r c = Some true ∧ glookup a r c = Some x.
Proof.
  intros Ha Hm. unfold boolean_index.
  rewrite decide_True by (eapply shape_agree; eauto).
  eexists. split; [done|]. intros x.
  rewrite list_elem_of_join. split.
  - intros (l & Hx & Hl).
    apply elem_of_lookup_zip_with in Hl as (r & ra & rm & -> & Hra & Hrm).
    apply list_elem_of_bind in Hx as ([y b] & Hx & Hp).
    apply elem_of_lookup_zip_with in Hp as (c & y' & b' & [= -> ->] & Hy & Hb).
    simpl in Hx. destruct b'; [|by apply elem_of_nil in Hx].
    apply list_elem_of_singleton in Hx as ->.
    exists r, c. unfold glookup. by rewrite Hra, Hrm.
  - intros (r & c & Hmr & Har). unfold glookup in *.
    destruct (a !! r) as [ra|] eqn:Hra; [|done].
    destruct (m !! r) as [rm|] eqn:Hrm; [|done]. simpl in *.
    eexists. split; [|by eapply elem_of_lookup_zip_with_2].
    apply list_elem_of_bind. exists (x, true). split.
    + simpl. by apply list_elem_of_singleton.
    + by apply (elem_of_lookup_zip_with_2 pair ra rm x true (x, true) c).
Qed.

(** C9, as the code has it.  The image is [uint8], so the subtraction of
    255 wraps: for channel values in [0, 255] the colour of a masked pixel
    is ((rgb - 255) mod 256) / 255, that is ((rgb + 1) mod 256) / 255, and
    it lies in [0, 1]. *)
Theorem food_rgb_colors (h w : nat) (png : grid (list Z)) (ranked : grid Z)
    (i : Z) :
  has_shape h w png → has_shape h w ranked →
  (∀ r c px rgb, glookup png r c = Some px → rgb ∈ px → 0 ≤ rgb ≤ 255) →
  ∃ sel,
    food_rgb png ranked i = Ok (gmap color_value sel) ∧
    (∀ px, px ∈ sel ↔
       ∃ r c, glookup ranked r c = Some i ∧ glookup png r c = Some px) ∧
    ∀ px rgb, px ∈ sel → rgb ∈ px →
      color_value rgb = (of_int64 ((rgb - 255) mod 256) / 255)%float ∧
      color_value rgb = (of_int64 ((rgb + 1) mod 256) / 255)%float ∧
      (0 <=? color_value rgb)%float = true ∧
      (color_value rgb <=? 1)%float = true.
Proof.
  intros Hpng Hranked Hrange.
  destruct (elem_of_boolean_index h w png
              (gmap (fun v => bool_decide (v = i)) ranked))
    as (sel & Hsel & Hin); [done | by apply has_shape_gmap |].
  assert (∀ px, px ∈ sel ↔
            ∃ r c, glookup ranked r c = Some i ∧ glookup png r c = Some px) as Hin'.
  { intros px. rewrite Hin. split; intros (r & c & H1 & H2); exists r, c.
    - split; [|done]. rewrite glookup_gmap in H1.
      destruct (glookup ranked r c) as [v|]; simpl in H1; [|done].
      injection H1 as H1. apply bool_decide_eq_true in H1. by subst.
    - split; [|done]. rewrite glookup_gmap, H1. simpl.
      by rewrite bool_decide_eq_true_2. }
  exists sel. split; [|split; [done|]].
  - unfold food_rgb. by rewrite Hsel.
  - intros px rgb Hpx Hrgb.
    apply Hin' in Hpx as (r & c & _ & Hl).
    pose proof (color_value_range rgb (Hrange r c px rgb Hl Hrgb)) as Hu.
    unfold in_unit_interval in Hu. apply andb_true_iff in Hu as [H0 H1].
    split; [done|]. split; [|done].
    unfold color_value. by rewrite uint8_sub_255.
Qed.

Lemma food_rgb_colors_witness :
  ∃ sel,
    food_rgb one_pixel_png [[7]] 7 = Ok (gmap color_value sel) ∧
    (∀ px, px ∈ sel ↔
       ∃ r c, glookup [[7]] r c = Some 7 ∧ glookup one_pixel_png r c = Some px) ∧
    ∀ px rgb, px ∈ sel → rgb ∈ px →
      color_value rgb = (of_int64 ((rgb - 255) mod 256) / 255)%float ∧
      color_value rgb = (of_int64 ((rgb + 1) mod 256) / 255)%float ∧
      (0 <=? color_value rgb)%float = true ∧
      (color_value rgb <=? 1)%float = true.
Proof.
  apply (food_rgb_colors 1 1 one_pixel_png [[7]] 7).
  - repeat constructor.
  - repeat constructor.
  - intros [|r] [|c] px rgb Hl Hrgb; try discriminate Hl.
    injection Hl as <-.
    repeat (apply elem_of_cons in Hrgb as [->|Hrgb]; [lia|]).
    by apply elem_of_nil in Hrgb.
Defined.

(** C9 as stated fails: the channel value 0 gives the colour 1/255, which
    is positive and is not (0 - 255)/255 = -1. *)
Lemma food_rgb_is_not_negative :
  food_rgb one_pixel_png [[7]] 7 =
    Ok [[1 / 255; 129 / 255; 0 / 255]]%float ∧
  (0 <? 1 / 255)%float = true ∧
  (1 / 255 =? of_int64 (0 - 255) / 255)%float = false.
Proof. repeat split; vm_compute; reflexivity. Qed.

(** * Further properties of the code *)

(** ** [json2results]: what a returned result is made of *)

Section decoder_more.
Variable dp : list Z → list Z → nat * nat → list (Z * Z).

(** The loop returns exactly when every annotation has a mask. *)
Lemma json2results_loop_inv shape_ (todo : list annotation) :
  ∀ acc res, json2results_loop dp todo shape_ acc = Ok res →
    ∃ ms, Forall2 (fun s m => shape_mask dp s shape_ = Ok m) todo ms ∧
          res = {| class_names := class_names acc ++ (label <$> todo);
                   scores := scores acc ++ (ann_scores <$> todo);
                   masks := masks acc ++ ms |}.
Proof.
  induction todo as [|s todo IH]; intros acc res Hres.
  - cbn in Hres. injection Hres as <-. exists []. split; [constructor|].
    cbn. rewrite !app_nil_r. by destruct acc.
  - cbn [json2results_loop] in Hres.
    destruct (shape_mask dp s shape_) as [m|e] eqn:Hs; [|discriminate Hres].
    cbn [mbind result_bind] in Hres.
    destruct (IH _ _ Hres) as (ms & Hms & ->).
    exists (m :: ms). split; [by constructor|].
    cbn. by rewrite <- !app_assoc.
Qed.

Lemma json2results_inv (data : document) shape_ res :
  json2results dp data shape_ = Ok res →
  ∃ ms, Forall2 (fun s m => shape_mask dp s shape_ = Ok m) (shapes data) ms ∧
        res = {| class_names := label <$> shapes data;
                 scores := ann_scores <$> shapes data;
                 masks := ms |}.
Proof. apply json2results_loop_inv. Qed.

(** The loop stops at the first annotation without a mask. *)
Lemma json2results_loop_raise shape_ (pre : list annotation) s post e :
  Forall (fun s' => ∃ m, shape_mask dp s' shape_ = Ok m) pre →
  shape_mask dp s shape_ = Raise e →
  ∀ acc, json2results_loop dp (pre ++ s :: post) shape_ acc = Raise e.
Proof.
  intros Hpre Hs. induction Hpre as [|s' pre [m Hm] _ IH]; intros acc.
  - cbn. by rewrite Hs.
  - cbn [app json2results_loop]. rewrite Hm. cbn [mbind result_bind]. apply IH.
Qed.

Lemma json2results_single (s : annotation) shape_ :
  json2results dp {| shapes := [s] |} shape_ =
    m ← shape_mask dp s shape_;
    Ok {| class_names := [label s]; scores := [ann_scores s]; masks := [m] |}.
Proof.
  unfold json2results. cbn [shapes json2results_loop].
  by destruct (shape_mask dp s shape_).
Qed.

Lemma json2results_single_ok (s : annotation) shape_ :
  (∃ r, json2results dp {| shapes := [s] |} shape_ = Ok r) ↔
  ∃ m, shape_mask dp s shape_ = Ok m.
Proof.
  rewrite json2results_single.
  destruct (shape_mask dp s shape_) as [m|e]; cbn; split; intros [x Hx];
    try discriminate Hx; eauto.
Qed.

Lemma json2results_single_raise (s : annotation) shape_ e :
  json2results dp {| shapes := [s] |} shape_ = Raise e ↔
  shape_mask dp s shape_ = Raise e.
Proof.
  rewrite json2results_single.
  destruct (shape_mask dp s shape_) as [m|e']; cbn.
  - split; intros Hx; discriminate Hx.
  - split; intros Hx; injection Hx as ->; reflexivity.
Qed.

(** A first annotation without a mask, if any annotation has none. *)
Lemma first_failing shape_ (l : list annotation) :
  Forall (fun s => ∃ m, shape_mask dp s shape_ = Ok m) l ∨
  ∃ pre s post e, l = pre ++ s :: post ∧
    Forall (fun s' => ∃ m, shape_mask dp s' shape_ = Ok m) pre ∧
    shape_mask dp s shape_ = Raise e.
Proof.
  induction l as [|s l IH]; [left; constructor|].
  destruct (shape_mask dp s shape_) as [m|e] eqn:Hs.
  - destruct IH as [Hall|(pre & s' & post & e & -> & Hpre & He)].
    + left. constructor; eauto.
    + right. exists (s :: pre), s', post, e. split; [done|].
      split; [constructor; eauto | done].
  - right. exists [], s, l, e. split; [done|]. split; [constructor|done].
Qed.

End decoder_more.

(** X2. [json2results] returns for a document exactly when it returns
    for each of its annotations alone: one annotation that cannot be
    decoded makes the whole call fail, and nothing else does. *)
Theorem json2results_all_or_nothing
    (dp : list Z → list Z → nat * nat → list (Z * Z))
    (data : document) (shape_ : nat * nat) :
  (∃ res, json2results dp data shape_ = Ok res) ↔
  (∀ s, s ∈ shapes data → ∃ r, json2results dp {| shapes := [s] |} shape_ = Ok r).
Proof.
  split.
  - intros [res Hres] s Hs.
    apply json2results_inv in Hres as (ms & Hms & _).
    apply json2results_single_ok.
    apply list_elem_of_lookup in Hs as [i Hi].
    destruct (Forall2_lookup_l _ _ _ _ _ Hms Hi) as (m & _ & Hm). eauto.
  - intros Hall.
    destruct (json2results_ok dp data shape_) as (ms & Hres & _); [|eauto].
    intros j s Hj. apply json2results_single_ok, Hall.
    by eapply list_elem_of_lookup_2.
Qed.

(** X3. When [json2results] fails, its exception is the one of the
    first annotation, in document order, that cannot be decoded alone. *)
Theorem json2results_first_error
    (dp : list Z → list Z → nat * nat → list (Z * Z))
    (data : document) (shape_ : nat * nat) (e : exn) :
  json2results dp data shape_ = Raise e ↔
  ∃ pre s post,
    shapes data = pre ++ s :: post ∧
    (∀ s', s' ∈ pre → ∃ r, json2results dp {| shapes := [s'] |} shape_ = Ok r) ∧
    json2results dp {| shapes := [s] |} shape_ = Raise e.
Proof.
  split.
  - intros Hres.
    destruct (first_failing dp shape_ (shapes data))
      as [Hall|(pre & s & post & e' & Heq & Hpre & He')].
    + destruct (json2results_ok dp data shape_) as (ms & Hok & _).
      * intros j s Hj. eapply Forall_lookup_1 in Hall; eauto.
      * rewrite Hok in Hres. discriminate Hres.
    + exists pre, s, post. split; [done|]. split.
      * intros s' Hs'. apply json2results_single_ok.
        by eapply Forall_forall in Hpre.
      * apply json2results_single_raise.
        unfold json2results in Hres. rewrite Heq in Hres.
        rewrite (json2results_loop_raise dp shape_ pre s post e' Hpre He') in Hres.
        by injection Hres as ->.
  - intros (pre & s & post & Heq & Hpre & He).
    unfold json2results. rewrite Heq.
    apply json2results_loop_raise.
    + apply Forall_forall. intros s' Hs'. by apply json2results_single_ok, Hpre.
    + by apply json2results_single_raise.
Qed.

(** ** [json2results]: one annotation at a time *)

Section annotation_facts.
Variable dp : list Z → list Z → nat * nat → list (Z * Z).

Lemma np_array_rectangular (pts : list (list Q)) m :
  Forall (fun p => length p = m) pts → np_array pts = Ok pts.
Proof.
  intros Hall. unfold np_array. destruct pts as [|p pts]; [done|].
  rewrite decide_True; [done|].
  eapply Forall_impl; [exact Hall|]. intros q Hq. simpl in *.
  rewrite Hq. symmetry. by inversion Hall.
Qed.

Lemma np_array_ragged (p q : list Q) (pts : list (list Q)) :
  q ∈ pts → length q ≠ length p → np_array (p :: pts) = Raise ValueError.
Proof.
  intros Hq Hne. unfold np_array. rewrite decide_False; [done|].
  intros Hall. inversion Hall as [|? ? _ Hrest]; subst.
  by eapply Forall_forall in Hrest.
Qed.

Lemma shape_mask_np_array_raise (s : annotation) shape_ e :
  np_array (points s) = Raise e → shape_mask dp s shape_ = Raise e.
Proof. intros H. unfold shape_mask. by rewrite H. Qed.


Lemma shape_mask_rectangle_short (s : annotation) shape_ k m :
  shape_type s = "rectangle" →
  length (points s) = k →
  Forall (fun p => length p = m) (points s) →
  (k < 2)%nat ∨ (m < 2)%nat →
  shape_mask dp s shape_ = Raise IndexError.
Proof.
  intros Hk Hlen Hall Hshort. unfold shape_mask.
  rewrite (np_array_rectangular _ m Hall).
  cbn [mbind result_bind]. rewrite decide_True by done.
  destruct (points s) as [|p0 [|p1 more]] eqn:Hp; [done| |].
  - inversion Hall as [|? ? H0 _]; subst. simpl in *.
    destruct p0 as [|a [|b e0]]; [done..|].
    unfold getitem2, getitem, gmap. by cbn.
  - inversion Hall as [|? ? H0 Hall']; subst.
    inversion Hall' as [|? ? H1 _]; subst. simpl in *.
    destruct Hshort as [?|Hm]; [lia|].
    destruct p0 as [|a [|b e0]]; [done..|simpl in *; lia].
Qed.

Lemma shape_mask_polygon_short (s : annotation) shape_ m :
  shape_type s ≠ "rectangle" →
  Forall (fun p => length p = m) (points s) →
  points s = [] ∨ (m < 2)%nat →
  shape_mask dp s shape_ = Raise IndexError.
Proof.
  intros Hk Hall Hshort. unfold shape_mask.
  rewrite (np_array_rectangular _ m Hall).
  cbn [mbind result_bind]. rewrite decide_False by done.
  destruct (points s) as [|p0 more] eqn:Hp; [done|].
  destruct Hshort as [?|Hm]; [done|].
  inversion Hall as [|? ? H0 _]; subst. simpl in *.
  destruct p0 as [|a [|b e0]]; [done..|simpl in *; lia].
Qed.

End annotation_facts.

(** X4. Each annotation is decoded on its own: the i-th mask of a
    returned result is the mask that the i-th annotation gets as a
    document of one shape. *)
Theorem json2results_independent
    (dp : list Z → list Z → nat * nat → list (Z * Z))
    (data : document) (shape_ : nat * nat) (res : results)
    (i : nat) (s : annotation) :
  json2results dp data shape_ = Ok res →
  shapes data !! i = Some s →
  ∃ m, masks res !! i = Some m ∧
       json2results dp {| shapes := [s] |} shape_ =
         Ok {| class_names := [label s]; scores := [ann_scores s];
               masks := [m] |}.
Proof.
  intros Hres Hi. apply json2results_inv in Hres as (ms & Hms & ->).
  destruct (Forall2_lookup_l _ _ _ _ _ Hms Hi) as (m & Hm & Hsm).
  exists m. split; [done|]. by rewrite json2results_single, Hsm.
Qed.

Lemma json2results_independent_witness :
  ∃ m,
    masks {| class_names := ["plate"; "plate"]; scores := [None; None];
             masks := [slice_assign (full 5 5 0) 1 3 1 3 1;
                       slice_assign (full 5 5 0) 0 2 2 5 1] |} !! 1%nat = Some m ∧
    json2results pnpoly_polygon {| shapes := [rectangle_annotation 2 0 5 2] |}
      (5, 5)%nat =
      Ok {| class_names := [label (rectangle_annotation 2 0 5 2)];
            scores := [ann_scores (rectangle_annotation 2 0 5 2)];
            masks := [m] |}.
Proof.
  apply (json2results_independent pnpoly_polygon
           {| shapes := [rectangle_annotation 1 1 3 3;
                         rectangle_annotation 2 0 5 2] |} (5, 5)%nat).
  - vm_compute. reflexivity.
  - reflexivity.
Defined.

(** X5. An annotation whose points all have the same number m of
    coordinates, every coordinate inside the range of [int64]: with no
    points, or m < 2, or for a rectangle a single point, [json2results]
    raises [IndexError]. *)
Theorem json2results_too_few_coordinates
    (cast : Q → Z) (dp : list Z → list Z → nat * nat → list (Z * Z))
    (s : annotation) (shape_ : nat * nat) (m : nat) :
  int64_cast cast → int64_points s →
  Forall (fun p => length p = m) (points s) →
  points s = [] ∨ (m < 2)%nat ∨
    (shape_type s = "rectangle" ∧ length (points s) = 1%nat) →
  json2results_with cast dp {| shapes := [s] |} shape_ = Raise IndexError.
Proof.
  intros Hcast Hint Hall Hshort.
  rewrite json2results_with_single_int64 by done.
  apply json2results_single_raise.
  destruct (decide (shape_type s = "rectangle")) as [Hk|Hk].
  - apply (shape_mask_rectangle_short dp s shape_ (length (points s)) m);
      [done..|].
    destruct Hshort as [->|[?|[_ ->]]]; simpl; lia.
  - apply (shape_mask_polygon_short dp s shape_ m); [done..|].
    destruct Hshort as [?|[?|[? _]]]; tauto.
Qed.

Lemma json2results_too_few_coordinates_witness :
  json2results_with astype_int64_wrap pnpoly_polygon
    {| shapes := [one_point_rectangle] |} (5, 5)%nat = Raise IndexError.
Proof.
  apply (json2results_too_few_coordinates astype_int64_wrap pnpoly_polygon
           one_point_rectangle (5, 5)%nat 2).
  - intros q [Hlo Hhi]. unfold astype_int64_wrap, wrap_int64.
    rewrite Z.mod_small by lia. lia.
  - repeat (apply Forall_cons; split); try (by constructor); by vm_compute.
  - repeat constructor.
  - right. right. split; reflexivity.
Defined.

(** X6. Points that do not all have the same number of coordinates
    raise [ValueError], whatever the kind of the annotation. *)
Theorem json2results_ragged_points
    (dp : list Z → list Z → nat * nat → list (Z * Z))
    (s : annotation) (shape_ : nat * nat) (p q : list Q) (rest : list (list Q)) :
  points s = p :: rest → q ∈ rest → length q ≠ length p →
  json2results dp {| shapes := [s] |} shape_ = Raise ValueError.
Proof.
  intros Hp Hq Hne. apply json2results_single_raise.
  apply shape_mask_np_array_raise. rewrite Hp. by eapply np_array_ragged.
Qed.

Lemma json2results_ragged_points_witness :
  json2results pnpoly_polygon {| shapes := [ragged_polygon] |} (5, 5)%nat
    = Raise ValueError.
Proof.
  apply (json2results_ragged_points pnpoly_polygon ragged_polygon (5, 5)%nat
           [1; 1]%Q [3]%Q [[3; 1]; [3]]%Q).
  - reflexivity.
  - apply elem_of_cons. right. apply elem_of_cons. by left.
  - simpl. lia.
Defined.




(** ** [json2results]: masks *)

Lemma fancy_assign_has_shape {A} h w (idx : list (Z * Z)) (v : A) :
  ∀ a a', has_shape h w a → fancy_assign a idx v = Ok a' → has_shape h w a'.
Proof.
  induction idx as [|[r c] idx IH]; intros a a' Ha Heq.
  - cbn in Heq. by injection Heq as <-.
  - cbn [fancy_assign] in Heq.
    destruct (norm_index r (shape a).1) as [r'|e]; [|discriminate Heq].
    destruct (norm_index c (shape a).2) as [c'|e]; [|discriminate Heq].
    cbn [mbind result_bind] in Heq.
    eapply IH; [|exact Heq]. by apply has_shape_alter_insert.
Qed.

Lemma glookup_full_inv {A} h w (v x : A) r c :
  glookup (full h w v) r c = Some x → x = v.
Proof.
  intros Hl. destruct (glookup_lt _ _ _ _ _ _ (has_shape_full h w v) Hl).
  rewrite glookup_full in Hl by done. by injection Hl.
Qed.

Lemma shape_mask_binary
    (dp : list Z → list Z → nat * nat → list (Z * Z))
    (s : annotation) h w (m : grid Z) :
  shape_mask dp s (h, w) = Ok m →
  has_shape h w m ∧ ∀ r c v, glookup m r c = Some v → v = 0 ∨ v = 1.
Proof.
  unfold shape_mask. intros Hm.
  destruct (np_array (points s)) as [pts|e]; [|discriminate Hm].
  cbn [mbind result_bind] in Hm.
  destruct (decide (shape_type s = "rectangle")) as [Hk|Hk].
  - repeat match type of Hm with
           | mbind _ ?x = _ =>
               destruct x; [cbn [mbind result_bind] in Hm | discriminate Hm]
           end.
    injection Hm as <-. cbn [fst snd]. split.
    + apply has_shape_slice_assign, has_shape_full.
    + intros r c v Hl.
      destruct (glookup_lt _ _ _ _ _ _
                  (has_shape_slice_assign h w _ _ _ _ _ _ (has_shape_full h w 0)) Hl)
        as [Hr Hc].
      rewrite (glookup_slice_assign h w _ _ _ _ _ _ r c 0) in Hl
        by (apply has_shape_full || by apply glookup_full).
      injection Hl as <-. case_decide; auto.
  - repeat match type of Hm with
           | mbind _ ?x = _ =>
               let E := fresh "E" in
               destruct x eqn:E; [cbn [mbind result_bind] in Hm | discriminate Hm]
           end.
    injection Hm as <-.
    match goal with
    | E : poly2mask _ _ _ _ = Ok ?mask |- _ =>
        unfold poly2mask in E; cbn [fst snd] in E;
        pose proof (fancy_assign_has_shape h w _ _ _ _ (has_shape_full h w false) E)
          as Hmask
    end.
    split; [by apply has_shape_gmap|].
    intros r c v Hl. rewrite glookup_gmap in Hl.
    destruct (glookup _ r c) as [[]|]; simpl in Hl; [| |done];
      injection Hl as <-; auto.
Qed.

Lemma json2results_masks
    (dp : list Z → list Z → nat * nat → list (Z * Z))
    (data : document) h w (res : results) :
  json2results dp data (h, w) = Ok res →
  class_names res = label <$> shapes data ∧
  length (masks res) = length (shapes data) ∧
  Forall (has_shape h w) (masks res).
Proof.
  intros Hres. apply json2results_inv in Hres as (ms & Hms & ->).
  cbn [class_names masks]. split; [done|].
  split; [symmetry; by eapply Forall2_length|].
  apply Forall_lookup. intros i m Hi.
  destruct (Forall2_lookup_r _ _ _ _ _ Hms Hi) as (s & _ & Hs).
  by eapply shape_mask_binary.
Qed.

(** X8. Every mask of a returned result has the shape [shape_] that was
    asked for, and holds only 0 and 1. *)
Theorem json2results_masks_binary
    (dp : list Z → list Z → nat * nat → list (Z * Z))
    (data : document) (h w : nat) (res : results) :
  json2results dp data (h, w) = Ok res →
  Forall (fun m => has_shape h w m ∧
                   ∀ r c v, glookup m r c = Some v → v = 0 ∨ v = 1)
    (masks res).
Proof.
  intros Hres. apply json2results_inv in Hres as (ms & Hms & ->).
  cbn [masks]. apply Forall_lookup. intros i m Hi.
  destruct (Forall2_lookup_r _ _ _ _ _ Hms Hi) as (s & _ & Hs).
  by eapply shape_mask_binary.
Qed.

Lemma json2results_masks_binary_witness :
  Forall (fun m => has_shape 5 5 m ∧
                   ∀ r c v, glookup m r c = Some v → v = 0 ∨ v = 1)
    (masks {| class_names := ["plate"; "plate"]; scores := [None; None];
              masks := [slice_assign (full 5 5 0) 1 3 1 3 1;
                        (fun row : list bool =>
                           (fun b : bool => if b then 1 else 0) <$> row) <$>
                        [[false; false; false; false; false];
                         [false; true; true; true; false];
                         [false; true; true; true; false];
                         [false; true; true; true; false];
                         [false; false; false; false; false]]] |}).
Proof.
  apply (json2results_masks_binary pnpoly_polygon
           {| shapes := [rectangle_annotation 1 1 3 3;
                         polygon_annotation "polygon" 1 1 3 3] |} 5 5).
  vm_compute. reflexivity.
Defined.





(** The rectangle that starts at (-2, -1) marks the last row, columns 3. *)
Example rectangle_from_outside_on_5x5 :
  json2results pnpoly_polygon {| shapes := [rectangle_annotation (-2) (-1) 4 5] |}
    (5, 5)%nat =
  Ok {| class_names := ["plate"]; scores := [None];
        masks := [[[0; 0; 0; 0; 0]; [0; 0; 0; 0; 0]; [0; 0; 0; 0; 0];
                   [0; 0; 0; 0; 0]; [0; 0; 0; 1; 0]]] |}.
Proof. vm_compute. reflexivity. Qed.




(** ** [pix2point]: the coefficients it reads *)

(** X12. [pix2point] returns exactly when [coeffs] has five entries or
    more, whatever the image and the other fields; with fewer it raises
    [IndexError], and entries after the fifth are never read. *)
Theorem pix2point_five_coefficients (D : grid float) (d : intrinsics) :
  ((∃ out, pix2point D d = Ok out) ↔ (5 ≤ length (coeffs d))%nat) ∧
  (pix2point D d = Raise IndexError ↔ (length (coeffs d) < 5)%nat) ∧
  pix2point D d = pix2point D (with_coeffs d (take 5 (coeffs d))).
Proof.
  unfold pix2point, with_coeffs. cbn [coeffs fx fy ppx ppy].
  destruct (shape D) as [h w]. destruct (meshgrid (arange w) (arange h)) as [X Y].
  destruct (coeffs d) as [|c0 [|c1 [|c2 [|c3 [|c4 rest]]]]];
    cbn [getitem lookup list_lookup mbind result_bind length take];
    (split; [|split]);
    first [ reflexivity
          | split; [intros [? ?]; discriminate | lia]
          | split; [intros _; lia | reflexivity]
          | split; [intros _; lia | eexists; reflexivity]
          | split; [discriminate | lia] ].
Qed.

(** ** [get_food_mask]: names and masks of different numbers *)

Lemma rank_loop_app (ms : list (grid Z)) (l1 l2 : list nat) :
  ∀ ranked, rank_loop ms (l1 ++ l2) ranked =
            ranked' ← rank_loop ms l1 ranked; rank_loop ms l2 ranked'.
Proof.
  induction l1 as [|i l1 IH]; intros ranked; [done|].
  cbn [app rank_loop].
  destruct (getitem ms i) as [m|e]; [|done]. cbn [mbind result_bind].
  destruct (assign_where ranked m (Z.of_nat i)) as [r|e]; [|done].
  cbn [mbind result_bind]. apply IH.
Qed.

Lemma rank_loop_take (ms : list (grid Z)) n (idxs : list nat) :
  Forall (fun i => (i < n)%nat) idxs →
  ∀ ranked, rank_loop (take n ms) idxs ranked = rank_loop ms idxs ranked.
Proof.
  induction 1 as [|i idxs Hi _ IH]; intros ranked; [done|].
  cbn [rank_loop]. unfold getitem. rewrite lookup_take_lt by done.
  destruct (ms !! i) as [m|]; [|done]. cbn [mbind result_bind].
  destruct (assign_where ranked m (Z.of_nat i)) as [r|e]; [|done].
  cbn [mbind result_bind]. apply IH.
Qed.

(** X13. With more class names than masks (all masks of one shape),
    [get_food_mask] raises [IndexError]: it indexes the masks by the
    positions of the names. *)
Theorem get_food_mask_fewer_masks (h w : nat) (res : results) :
  masks res ≠ [] →
  Forall (has_shape h w) (masks res) →
  (length (masks res) < length (class_names res))%nat →
  get_food_mask res = Raise IndexError.
Proof.
  intros Hne Hms Hlt. unfold get_food_mask, getitem.
  destruct (masks res) as [|m0 ms'] eqn:Hmasks; [done|].
  cbn [lookup list_lookup mbind result_bind]. rewrite <- Hmasks in *.
  assert (has_shape h w m0) as Hm0.
  { rewrite Hmasks in Hms. by inversion Hms. }
  set (init := gmap _ (full _ _ 1)).
  assert (has_shape h w init) as Hinit
    by apply has_shape_gmap, has_shape_full_shape, Hm0.
  replace (length (class_names res))
    with (length (masks res) + (length (class_names res) - length (masks res)))%nat
    by lia.
  rewrite seq_app, rank_loop_app.
  destruct (rank_loop_spec h w (masks res) Hms (length (masks res)) 0%nat init)
    as (ranked & -> & _ & _); [lia|done|].
  cbn [mbind result_bind].
  destruct (length (class_names res) - length (masks res))%nat as [|k] eqn:Hk;
    [lia|].
  cbn [seq rank_loop]. unfold getitem.
  rewrite lookup_ge_None_2 by (simpl; lia). done.
Qed.

Lemma get_food_mask_fewer_masks_witness :
  get_food_mask three_names_two_masks = Raise IndexError.
Proof.
  apply (get_food_mask_fewer_masks 2 3 three_names_two_masks).
  - discriminate.
  - repeat constructor.
  - simpl. lia.
Defined.

(** X14. With fewer class names than masks, the masks beyond the number
    of names are ignored: the result is that of the masks the names
    cover. *)
Theorem get_food_mask_surplus_masks (res : results) :
  (0 < length (class_names res) ≤ length (masks res))%nat →
  get_food_mask res =
  get_food_mask
    {| class_names := class_names res; scores := scores res;
       masks := take (length (class_names res)) (masks res) |}.
Proof.
  intros [Hpos Hle]. unfold get_food_mask, getitem. cbn [masks class_names].
  rewrite lookup_take_lt by done.
  destruct (masks res !! 0%nat) as [m0|]; [|done].
  cbn [mbind result_bind].
  rewrite rank_loop_take; [done|].
  apply Forall_forall. intros i Hi. apply elem_of_seq in Hi. lia.
Qed.

Lemma get_food_mask_surplus_masks_witness :
  get_food_mask one_name_two_masks =
  get_food_mask
    {| class_names := class_names one_name_two_masks;
       scores := scores one_name_two_masks;
       masks := take (length (class_names one_name_two_masks))
                  (masks one_name_two_masks) |}.
Proof.
  apply (get_food_mask_surplus_masks one_name_two_masks). simpl. lia.
Defined.

(** ** [get_food_mask] after [json2results] *)

(** X15. The two compose: for every document with at least one shape
    that [json2results] decodes, [get_food_mask] returns on the result; the
    label image has the shape that was asked for and holds only -1 and
    positions of annotations. *)
Theorem get_food_mask_of_json2results
    (dp : list Z → list Z → nat * nat → list (Z * Z))
    (data : document) (h w : nat) (res : results) :
  json2results dp data (h, w) = Ok res →
  shapes data ≠ [] →
  ∃ ranked idxs,
    get_food_mask res = Ok (ranked, idxs) ∧ has_shape h w ranked ∧
    ∀ r c v, glookup ranked r c = Some v →
      -1 ≤ v < Z.of_nat (length (shapes data)).
Proof.
  intros Hres Hne.
  destruct (json2results_masks dp data h w res Hres) as (Hnames & Hlen & Hms).
  destruct (get_food_mask_spec h w res) as (ranked & Heq & Hsh & Hpix).
  - intros Hnil. rewrite Hnil in Hlen. by destruct (shapes data).
  - by rewrite Hnames, length_fmap.
  - done.
  - eexists _, _. split; [exact Heq|]. split; [done|].
    intros r c v Hv. destruct (glookup_lt _ _ _ _ _ _ Hsh Hv) as [Hr Hc].
    destruct (Hpix r c Hr Hc) as (v' & Hv' & Hlw).
    rewrite Hv in Hv'. injection Hv' as <-. rewrite Hlen in Hlw.
    destruct Hlw as [[-> _]|(i & Hi & -> & _)]; lia.
Qed.

Lemma get_food_mask_of_json2results_witness :
  ∃ ranked idxs,
    get_food_mask
      {| class_names := ["plate"; "plate"]; scores := [None; None];
         masks := [slice_assign (full 5 5 0) 1 3 1 3 1;
                   slice_assign (full 5 5 0) 0 2 2 5 1] |} = Ok (ranked, idxs) ∧
    has_shape 5 5 ranked ∧
    ∀ r c v, glookup ranked r c = Some v →
      -1 ≤ v < Z.of_nat (length [rectangle_annotation 1 1 3 3;
                                 rectangle_annotation 2 0 5 2]).
Proof.
  apply (get_food_mask_of_json2results pnpoly_polygon
           {| shapes := [rectangle_annotation 1 1 3 3;
                         rectangle_annotation 2 0 5 2] |} 5 5).
  - vm_compute. reflexivity.
  - discriminate.
Defined.

(** ** Points and colours of a cloud *)

Lemma boolean_index_kept {A} (a : grid A) (m : grid bool) :
  shape m = shape a → boolean_index a m = Ok (mjoin (zip_with kept a m)).
Proof. intros Hs. unfold boolean_index. by rewrite decide_True. Qed.

Section selection_order.
Context {A : Type}.

Lemma kept_cons (x : A) (row : list A) (b : bool) (mrow : list bool) :
  kept (x :: row) (b :: mrow) = (if b then [x] else []) ++ kept row mrow.
Proof. reflexivity. Qed.

Lemma elem_of_row_positions r mrow : ∀ c0 p,
  p ∈ row_positions r c0 mrow ↔
  p.1 = r ∧ (c0 ≤ p.2)%nat ∧ mrow !! (p.2 - c0)%nat = Some true.
Proof.
  induction mrow as [|b mrow IH]; intros c0 [pr pc]; simpl.
  - rewrite elem_of_nil. split; [done|]. by intros (_ & _ & ?).
  - rewrite elem_of_app, IH. simpl. split.
    + intros [Hb|(-> & Hc & Hl)].
      * destruct b; [|by apply elem_of_nil in Hb].
        apply list_elem_of_singleton in Hb as [= -> ->].
        rewrite Nat.sub_diag. done.
      * split; [done|]. split; [lia|].
        replace (pc - c0)%nat with (S (pc - S c0)) by lia. done.
    + intros (-> & Hc & Hl). destruct (decide (pc = c0)) as [->|Hne].
      * left. rewrite Nat.sub_diag in Hl. injection Hl as ->.
        by apply list_elem_of_singleton.
      * right. split; [done|]. split; [lia|].
        replace (pc - c0)%nat with (S (pc - S c0)) in Hl by lia. done.
Qed.

Lemma row_positions_sorted r mrow : ∀ c0,
  StronglySorted row_major (row_positions r c0 mrow).
Proof.
  induction mrow as [|b mrow IH]; intros c0; simpl; [constructor|].
  apply StronglySorted_app. split_and!.
  - intros p q Hp Hq. destruct b; [|by apply elem_of_nil in Hp].
    apply list_elem_of_singleton in Hp as ->.
    apply elem_of_row_positions in Hq as (Hq1 & Hq2 & _).
    right. simpl. split; [done | lia].
  - destruct b; repeat constructor.
  - apply IH.
Qed.

Lemma row_positions_kept r (row : list A) : ∀ mrow c0,
  length row = length mrow →
  Forall2 (fun p x => p.1 = r ∧ (c0 ≤ p.2)%nat ∧
                      row !! (p.2 - c0)%nat = Some x)
    (row_positions r c0 mrow) (kept row mrow).
Proof.
  induction row as [|x row IH]; intros [|b mrow] c0 Hlen;
    try discriminate Hlen; [constructor|].
  injection Hlen as Hlen. rewrite kept_cons. cbn [row_positions].
  apply Forall2_app.
  - destruct b; [|constructor]. constructor; [|constructor].
    simpl. rewrite Nat.sub_diag. done.
  - eapply Forall2_impl; [apply (IH mrow (S c0) Hlen)|].
    intros p y (Hr & Hc & Hl). split; [done|]. split; [lia|].
    replace (p.2 - c0)%nat with (S (p.2 - S c0)) by lia. done.
Qed.

Lemma elem_of_positions_from (m : grid bool) : ∀ r0 p,
  p ∈ positions_from r0 m ↔
  (r0 ≤ p.1)%nat ∧
  ∃ mrow, m !! (p.1 - r0)%nat = Some mrow ∧ mrow !! p.2 = Some true.
Proof.
  induction m as [|mrow0 m IH]; intros r0 [pr pc]; simpl.
  - rewrite elem_of_nil. split; [done|]. by intros (_ & ? & ? & _).
  - rewrite elem_of_app, elem_of_row_positions, IH. simpl. split.
    + intros [(-> & _ & Hl)|(Hr & mrow & Hm & Hl)].
      * split; [done|]. exists mrow0. rewrite Nat.sub_diag, Nat.sub_0_r in *.
        done.
      * split; [lia|]. exists mrow.
        replace (pr - r0)%nat with (S (pr - S r0)) by lia. done.
    + intros (Hr & mrow & Hm & Hl). destruct (decide (pr = r0)) as [->|Hne].
      * left. rewrite Nat.sub_diag in Hm. injection Hm as ->.
        rewrite Nat.sub_0_r. split; [done|]. split; [lia|done].
      * right. split; [lia|]. exists mrow.
        replace (pr - r0)%nat with (S (pr - S r0)) in Hm by lia. done.
Qed.

Lemma positions_from_sorted (m : grid bool) : ∀ r0,
  StronglySorted row_major (positions_from r0 m).
Proof.
  induction m as [|mrow m IH]; intros r0; simpl; [constructor|].
  apply StronglySorted_app. split_and!;
    [| apply row_positions_sorted | apply IH].
  intros p q Hp Hq.
  apply elem_of_row_positions in Hp as (Hp1 & _).
  apply elem_of_positions_from in Hq as (Hq1 & _).
  left. lia.
Qed.

Lemma positions_from_kept (a : grid A) : ∀ m r0,
  Forall2 (fun ra rm => length ra = length rm) a m →
  Forall2 (fun p x => (r0 ≤ p.1)%nat ∧
                      a !! (p.1 - r0)%nat ≫= (.!! p.2) = Some x)
    (positions_from r0 m) (mjoin (zip_with kept a m)).
Proof.
  intros m r0 Hall. revert r0.
  induction Hall as [|ra rm a m Hlen _ IH]; intros r0; [constructor|].
  cbn [positions_from zip_with].
  change (mjoin (kept ra rm :: zip_with kept a m))
    with (kept ra rm ++ mjoin (zip_with kept a m)).
  apply Forall2_app.
  - eapply Forall2_impl; [apply (row_positions_kept r0 ra rm 0 Hlen)|].
    intros p x (Hp1 & _ & Hl). split; [lia|].
    rewrite Hp1, Nat.sub_diag. simpl. by rewrite Nat.sub_0_r in Hl.
  - eapply Forall2_impl; [apply (IH (S r0))|].
    intros p y [Hr Hl]. split; [lia|].
    replace (p.1 - r0)%nat with (S (p.1 - S r0)) by lia. done.
Qed.

End selection_order.

(** The positions are the pixels at which the array is set. *)
Lemma elem_of_positions (m : grid bool) r c :
  (r, c) ∈ positions_from 0 m ↔ glookup m r c = Some true.
Proof.
  rewrite elem_of_positions_from. simpl. rewrite Nat.sub_0_r. unfold glookup.
  split.
  - intros (_ & mrow & -> & Hl). done.
  - intros Hl. split; [lia|]. destruct (m !! r) as [mrow|]; [|done]. eauto.
Qed.

(** Boolean indexing lists the entries at the set pixels, in row-major
    order. *)
Lemma boolean_index_positions {A} h w (a : grid A) (m : grid bool) :
  has_shape h w a → has_shape h w m →
  ∃ sel, boolean_index a m = Ok sel ∧
    Forall2 (fun p x => glookup a p.1 p.2 = Some x) (positions_from 0 m) sel.
Proof.
  intros Ha Hm.
  rewrite (boolean_index_kept a m) by (eapply shape_agree; eauto).
  eexists. split; [done|].
  eapply Forall2_impl; [apply (positions_from_kept a m 0)|].
  - destruct Ha as [Hah Haw], Hm as [Hmh Hmw].
    apply Forall2_same_length_lookup_2; [lia|].
    intros i ra rm Hra Hrm.
    rewrite (Forall_lookup_1 _ _ _ _ Haw Hra), (Forall_lookup_1 _ _ _ _ Hmw Hrm).
    done.
  - intros p x [_ Hl]. rewrite Nat.sub_0_r in Hl. exact Hl.
Qed.

(** X16. The point cloud of an instance: [real_coords[food_mask]] and
    [food_rgb] have exactly one entry per pixel labelled [i], the pixels
    taken in row-major order: the k-th point and the k-th colour are the
    point and the colour of the k-th such pixel. *)
Theorem cloud_points_and_colors_aligned (h w : nat) (png : grid (list Z))
    (ranked : grid Z) (real_coords : grid (list float)) (i : Z) :
  has_shape h w png → has_shape h w ranked → has_shape h w real_coords →
  ∃ pix pts cols,
    StronglySorted row_major pix ∧
    (∀ r c, (r, c) ∈ pix ↔ glookup ranked r c = Some i) ∧
    boolean_index real_coords (gmap (fun v => bool_decide (v = i)) ranked)
      = Ok pts ∧
    food_rgb png ranked i = Ok cols ∧
    Forall2 (fun p pt => glookup real_coords p.1 p.2 = Some pt) pix pts ∧
    Forall2 (fun p col => ∃ px, glookup png p.1 p.2 = Some px ∧
                                col = color_value <$> px) pix cols.
Proof.
  intros Hpng Hranked Hrc.
  set (mask := gmap (fun v => bool_decide (v = i)) ranked).
  assert (has_shape h w mask) as Hmask by by apply has_shape_gmap.
  destruct (boolean_index_positions h w real_coords mask Hrc Hmask)
    as (pts & Hpts & Hptsal).
  destruct (boolean_index_positions h w png mask Hpng Hmask)
    as (pxs & Hpxs & Hpxsal).
  exists (positions_from 0 mask), pts, (gmap color_value pxs).
  split_and!.
  - apply positions_from_sorted.
  - intros r c. rewrite elem_of_positions. unfold mask.
    rewrite glookup_gmap. destruct (glookup ranked r c) as [v|]; simpl; [|done].
    split.
    + intros [= Hv]. apply bool_decide_eq_true in Hv. by subst.
    + intros [= ->]. by rewrite bool_decide_eq_true_2.
  - done.
  - unfold food_rgb. fold mask. by rewrite Hpxs.
  - done.
  - unfold gmap. apply Forall2_fmap_r.
    eapply Forall2_impl; [exact Hpxsal|]. intros p px Hl. simpl in *.
    by exists px.
Qed.

Lemma cloud_points_and_colors_aligned_witness :
  ∃ pix pts cols,
    StronglySorted row_major pix ∧
    (∀ r c, (r, c) ∈ pix ↔ glookup [[7; -1]; [7; 7]] r c = Some 7) ∧
    boolean_index [[[1; 2; 3]; [4; 5; 6]]; [[7; 8; 9]; [1; 1; 1]]]%float
      (gmap (fun v => bool_decide (v = 7)) [[7; -1]; [7; 7]]) = Ok pts ∧
    food_rgb sample_png [[7; -1]; [7; 7]] 7 = Ok cols ∧
    Forall2 (fun p pt =>
               glookup [[[1; 2; 3]; [4; 5; 6]]; [[7; 8; 9]; [1; 1; 1]]]%float
                 p.1 p.2 = Some pt) pix pts ∧
    Forall2 (fun p col => ∃ px, glookup sample_png p.1 p.2 = Some px ∧
                                col = color_value <$> px) pix cols.
Proof.
  apply (cloud_points_and_colors_aligned 2 2 sample_png [[7; -1]; [7; 7]]
           [[[1; 2; 3]; [4; 5; 6]]; [[7; 8; 9]; [1; 1; 1]]]%float 7);
    repeat constructor.
Defined.

(** ** [_on_click_load_pcd]: labels and clouds *)

(** The loop over [enumerate(mesh_info)], from any index on. *)
Lemma label_loop_spec (names : list string) (clouds : list point_cloud) :
  ∀ i scene,
    label_loop names clouds i scene =
      (scene ++ zip names (drop i clouds),
       if decide (length names ≤ length clouds - i)%nat
       then None else Some IndexError).
Proof.
  induction names as [|n names IH]; intros i scene.
  - cbn. rewrite app_nil_r. rewrite decide_True by lia. done.
  - cbn [label_loop]. destruct (clouds !! i) as [cl|] eqn:Hi.
    + rewrite IH. pose proof (lookup_lt_Some _ _ _ Hi) as Hlt.
      rewrite (drop_S _ _ _ Hi). cbn [zip zip_with length].
      rewrite <- app_assoc. f_equal.
      apply decide_ext. split; lia.
    + pose proof (lookup_ge_None_1 _ _ Hi) as Hge.
      rewrite drop_ge by done. cbn [zip zip_with length].
      rewrite app_nil_r, decide_False by lia. done.
Qed.

(** X17. The scene loop pairs class names and clouds by position: the
    k-th [add_geometry] call gets the k-th name and the k-th cloud.  It
    stops with [IndexError] exactly when there are fewer clouds than
    names, after the calls for the clouds there are; surplus clouds are
    not added. *)
Theorem label_loop_pairs_by_position (names : list string)
    (clouds : list point_cloud) :
  label_loop names clouds 0 [] =
    (zip names clouds,
     if decide (length names ≤ length clouds)%nat then None else Some IndexError).
Proof.
  rewrite label_loop_spec, drop_0, Nat.sub_0_r. done.
Qed.

Lemma StronglySorted_lt_NoDup (l : list Z) : StronglySorted Z.lt l → NoDup l.
Proof.
  induction 1 as [|x l _ IH Hx]; constructor; [|done].
  intros Hin. eapply Forall_forall in Hx; [|exact Hin]. lia.
Qed.

Lemma sorted_indices_length (l : list Z) (n : nat) :
  StronglySorted Z.lt l → (∀ v, v ∈ l → 0 ≤ v < Z.of_nat n) →
  (length l ≤ n)%nat.
Proof.
  intros Hs Hin.
  rewrite <- (Nat2Z.id n), <- (length_seqZ 0).
  apply submseteq_length, NoDup_submseteq; [by apply StronglySorted_lt_NoDup|].
  intros v Hv. apply elem_of_seqZ. specialize (Hin v Hv). lia.
Qed.

Lemma sorted_indices_full (l : list Z) (n : nat) :
  StronglySorted Z.lt l → (∀ v, v ∈ l → 0 ≤ v < Z.of_nat n) →
  length l = n → ∀ v, 0 ≤ v < Z.of_nat n → v ∈ l.
Proof.
  intros Hs Hin Hlen v Hv.
  assert (l ≡ₚ seqZ 0 (Z.of_nat n)) as ->.
  { apply submseteq_length_Permutation.
    - apply NoDup_submseteq; [by apply StronglySorted_lt_NoDup|].
      intros x Hx. apply elem_of_seqZ. specialize (Hin x Hx). lia.
    - rewrite length_seqZ. lia. }
  apply elem_of_seqZ. lia.
Qed.

(** An ascending list that holds exactly an interval is that interval. *)
Lemma sorted_range (l : list Z) :
  StronglySorted Z.lt l →
  ∀ lo n, (∀ v, v ∈ l ↔ lo ≤ v < lo + Z.of_nat n) → l = seqZ lo (Z.of_nat n).
Proof.
  induction 1 as [|x l _ IH Hx]; intros lo n Hin.
  - destruct n as [|n]; [done|].
    exfalso. eapply elem_of_nil, (Hin lo). lia.
  - rewrite Forall_forall in Hx.
    assert (lo ≤ x < lo + Z.of_nat n) as Hxr by (apply Hin; by left).
    assert (x = lo) as ->.
    { assert (lo ∈ x :: l) as Hlo by (apply Hin; lia).
      apply elem_of_cons in Hlo as [->|Hlo]; [done|].
      specialize (Hx lo Hlo). lia. }
    destruct n as [|n]; [lia|].
    rewrite seqZ_cons by lia. f_equal.
    replace (Z.pred (Z.of_nat (S n))) with (Z.of_nat n) by lia.
    apply IH. intros v. split.
    + intros Hv. specialize (Hx v Hv).
      assert (lo ≤ v < lo + Z.of_nat (S n)) by (apply Hin; by right). lia.
    + intros Hv. assert (v ∈ lo :: l) as Hv' by (apply Hin; lia).
      apply elem_of_cons in Hv' as [->|Hv']; [lia|done].
Qed.

(** The present indices of at most 32768 instances: ascending, each one
    a value of the label image, and exactly the instances that show. *)
Lemma get_food_mask_indices h w (res : results) :
  masks res ≠ [] →
  length (class_names res) = length (masks res) →
  Forall (has_shape h w) (masks res) →
  Z.of_nat (length (masks res)) ≤ 32768 →
  ∃ ranked idxs,
    get_food_mask res = Ok (ranked, idxs) ∧ has_shape h w ranked ∧
    StronglySorted Z.lt idxs ∧
    (∀ v, v ∈ idxs → ∃ r c, glookup ranked r c = Some v) ∧
    (∀ v, v ∈ idxs ↔
       ∃ i, v = Z.of_nat i ∧ (i < length (masks res))%nat ∧ seen (masks res) i).
Proof.
  intros Hne Hlen Hms Hsmall.
  destruct (get_food_mask_spec h w res Hne Hlen Hms) as (ranked & Heq & Hsh & Hpix).
  assert (∀ v r c, glookup ranked r c = Some v →
            last_writer (masks res) 0 (length (masks res)) r c (-1) v) as Hlw.
  { intros v r c Hv. destruct (glookup_lt _ _ _ _ _ _ Hsh Hv) as [Hr Hc].
    destruct (Hpix r c Hr Hc) as (v' & Hv' & Hlw). congruence. }
  assert (astype_int16 <$> np_unique ranked = np_unique ranked) as Hcast.
  { rewrite <- (list_fmap_id (np_unique ranked)) at 2.
    apply Forall_fmap_ext_1, Forall_forall. intros v Hv.
    apply elem_of_np_unique in Hv as (r & c & Hv).
    apply astype_int16_small.
    unfold id. destruct (Hlw v r c Hv) as [[-> _]|(i & Hi & -> & _)]; lia. }
  rewrite Hcast in Heq.
  assert (∀ j r c, mask_on (masks res) j r c → (j < length (masks res))%nat) as Hin.
  { intros j r c (m & Hm & _). by eapply lookup_lt_Some. }
  exists ranked, (filter (fun v => v ≠ -1) (np_unique ranked)).
  split; [done|]. split; [done|].
  split; [apply StronglySorted_filter_lt, np_unique_sorted|].
  split.
  - intros v [_ Hv]%list_elem_of_filter. by apply elem_of_np_unique.
  - intros v. rewrite list_elem_of_filter, elem_of_np_unique. split.
    + intros (Hv1 & r & c & Hv).
      destruct (Hlw _ r c Hv) as [[? _]|(i & Hi & -> & Hon & Hlast)]; [done|].
      exists i. split; [done|]. split; [lia|].
      exists r, c. split; [done|]. intros j Hij Hj.
      apply (Hlast j); [|done]. specialize (Hin j r c Hj). lia.
    + intros (i & -> & Hi & r & c & Hon & Hlast). split; [lia|].
      exists r, c. destruct Hon as (m & Hm & Hl).
      destruct (glookup_lt _ _ _ _ _ _ (Forall_lookup_1 _ _ _ _ Hms Hm) Hl)
        as [Hr Hc].
      destruct (Hpix r c Hr Hc)
        as (v & Hv & [[-> Hnone]|(i' & Hi' & -> & Hon' & Hlast')]).
      * exfalso. apply (Hnone i); [lia|]. by exists m.
      * destruct (decide (i' = i)) as [->|Hne']; [done|]. exfalso.
        destruct (decide (i' < i)%nat).
        -- apply (Hlast' i); [lia|]. by exists m.
        -- apply (Hlast i'); [lia|done].
Qed.

(** A boolean array that is set somewhere selects something. *)
Lemma boolean_index_nonempty {A} h w (a : grid A) (m : grid bool) r c :
  has_shape h w a → has_shape h w m → glookup m r c = Some true →
  ∃ x sel, boolean_index a m = Ok (x :: sel).
Proof.
  intros Ha Hm Hl.
  destruct (elem_of_boolean_index h w a m Ha Hm) as (sel & Hsel & Hin).
  destruct (glookup_lt _ _ _ _ _ _ Hm Hl) as [Hr Hc].
  destruct (glookup_is_Some _ _ _ r c Ha Hr Hc) as [x Hx].
  assert (x ∈ sel) as Hxs by (apply Hin; eauto).
  destruct sel as [|y sel]; [by apply elem_of_nil in Hxs|]. eauto.
Qed.

(** The loop over [food_indices]: one cloud per index, appended in order,
    when every index is a value of the label image. *)
Lemma cloud_loop_spec h w (png : grid (list Z)) (ranked : grid Z)
    (real_coords : grid (list float)) (idxs : list Z) :
  has_shape h w png → has_shape h w ranked → has_shape h w real_coords →
  Forall (fun i => ∃ r c, glookup ranked r c = Some i) idxs →
  ∀ acc, ∃ clouds,
    cloud_loop png ranked real_coords idxs acc = Ok (acc ++ clouds) ∧
    Forall2 (cloud_of png ranked real_coords) idxs clouds.
Proof.
  intros Hpng Hranked Hrc Hall.
  induction Hall as [|i idxs (r & c & Hi) _ IH]; intros acc.
  - exists []. rewrite app_nil_r. split; [done|constructor].
  - cbn [cloud_loop].
    assert (has_shape h w (gmap (fun v => bool_decide (v = i)) ranked)) as Hm
      by by apply has_shape_gmap.
    assert (glookup (gmap (fun v => bool_decide (v = i)) ranked) r c = Some true)
      as Hl by (rewrite glookup_gmap, Hi; simpl; by rewrite bool_decide_eq_true_2).
    destruct (boolean_index_nonempty h w png _ r c Hpng Hm Hl) as (px & pxs & Hpx).
    destruct (boolean_index_nonempty h w real_coords _ r c Hrc Hm Hl)
      as (pt & pts & Hpts).
    unfold food_rgb at 1. rewrite Hpx. cbn [mbind result_bind].
    rewrite Hpts. cbn [mbind result_bind].
    change (np_vstack (pt :: pts)) with (Ok (pt :: pts)).
    change (np_vstack (gmap color_value (px :: pxs)))
      with (Ok (gmap color_value (px :: pxs))).
    cbn [mbind result_bind].
    destruct (IH (acc ++ [{| pc_points := pt :: pts;
                             pc_colors := gmap color_value (px :: pxs) |}]))
      as (clouds & Hloop & Hclouds).
    eexists (_ :: clouds). split.
    + rewrite Hloop. by rewrite <- app_assoc.
    + constructor; [|done]. split; cbn [pc_points pc_colors]; [done|].
      unfold food_rgb. by rewrite Hpx.
Qed.

Lemma pix2point_depth_intrinsics h w (npy : grid float) :
  has_shape h w npy →
  ∃ real_coords,
    pix2point npy DEPTH_INTRINSICS_1280x720 = Ok real_coords ∧
    has_shape h w real_coords.
Proof.
  intros Hnpy.
  destruct (pix2point_pixels h w npy DEPTH_INTRINSICS_1280x720 0 0 0 0 0 Hnpy)
    as (out & Hout & Hsh & _); [done|]. eauto.
Qed.

(** The handler on a document that decodes, step by step. *)
Lemma on_click_load_pcd_run
    (dp : list Z → list Z → nat * nat → list (Z * Z))
    (h w : nat) (png : grid (list Z)) (npy : grid float)
    (data : document) (res : results) :
  (0 < h)%nat → has_shape h w png → has_shape h w npy →
  json2results dp data (h, w) = Ok res →
  shapes data ≠ [] →
  Z.of_nat (length (shapes data)) ≤ 32768 →
  ∃ ranked idxs real_coords clouds,
    get_food_mask res = Ok (ranked, idxs) ∧
    pix2point npy DEPTH_INTRINSICS_1280x720 = Ok real_coords ∧
    StronglySorted Z.lt idxs ∧
    (∀ v, v ∈ idxs ↔
       ∃ i, v = Z.of_nat i ∧ (i < length (shapes data))%nat ∧ seen (masks res) i) ∧
    Forall2 (cloud_of png ranked real_coords) idxs clouds ∧
    (length idxs ≤ length (shapes data))%nat ∧
    on_click_load_pcd dp png npy data =
      (zip (label <$> shapes data) clouds,
       if decide (length idxs = length (shapes data))
       then None else Some IndexError).
Proof.
  intros Hpos Hpng Hnpy Hres Hne Hsmall.
  destruct (json2results_masks dp data h w res Hres) as (Hnames & Hlen & Hms).
  destruct (get_food_mask_indices h w res)
    as (ranked & idxs & Hgfm & Hsh & Hsorted & Hocc & Hin).
  { intros Hnil. rewrite Hnil in Hlen. by destruct (shapes data). }
  { by rewrite Hnames, length_fmap. }
  { done. }
  { by rewrite Hlen. }
  destruct (pix2point_depth_intrinsics h w npy Hnpy) as (rc & Hrc & Hrcsh).
  destruct (cloud_loop_spec h w png ranked rc idxs Hpng Hsh Hrcsh)
    with (acc := @nil point_cloud) as (clouds & Hloop & Hclouds).
  { apply Forall_forall. intros v Hv. by apply Hocc. }
  rewrite Hlen in Hin.
  assert (length idxs ≤ length (shapes data))%nat as Hle.
  { apply sorted_indices_length; [done|].
    intros v (i & -> & Hi & _)%Hin. lia. }
  exists ranked, idxs, rc, clouds.
  repeat (split; [done|]).
  unfold on_click_load_pcd, load_pcd.
  rewrite (shape_eq h w npy Hnpy Hpos), Hres. cbn [mbind result_bind].
  rewrite Hgfm. cbn [mbind result_bind]. rewrite Hrc. cbn [mbind result_bind].
  rewrite Hloop. cbn [mbind result_bind app].
  rewrite label_loop_spec, Hnames. cbn [app]. rewrite drop_0. f_equal.
  rewrite <- (Forall2_length _ _ _ Hclouds), length_fmap, Nat.sub_0_r.
  destruct (decide (length idxs = length (shapes data))) as [He|Hn].
  - rewrite decide_True by lia. done.
  - rewrite decide_False by lia. done.
Qed.

(** X18. The handler on a document of at least one and at most 32768
    shapes that decodes, every coordinate inside the range of [int64],
    with a colour image and a depth image of one size, at least one row
    high: [get_food_mask] and [pix2point] return,
    the present indices are in ascending order, one cloud is built per
    present index in that order, and the k-th [add_geometry] call gets the
    label of the k-th annotation with the k-th of these clouds, which is
    the cloud of the k-th present index.  The handler ends with
    [IndexError] exactly when there are fewer present indices than
    annotations. *)
Theorem on_click_load_pcd_scene
    (dp : list Z → list Z → nat * nat → list (Z * Z))
    (h w : nat) (png : grid (list Z)) (npy : grid float)
    (data : document) (res : results) :
  (0 < h)%nat → has_shape h w png → has_shape h w npy →
  Forall int64_points (shapes data) →
  json2results dp data (h, w) = Ok res →
  shapes data ≠ [] →
  Z.of_nat (length (shapes data)) ≤ 32768 →
  ∃ ranked idxs real_coords clouds,
    get_food_mask res = Ok (ranked, idxs) ∧
    pix2point npy DEPTH_INTRINSICS_1280x720 = Ok real_coords ∧
    StronglySorted Z.lt idxs ∧
    Forall2 (cloud_of png ranked real_coords) idxs clouds ∧
    on_click_load_pcd dp png npy data =
      (zip (label <$> shapes data) clouds,
       if decide (length idxs = length (shapes data))
       then None else Some IndexError).
Proof.
  intros Hpos Hpng Hnpy _ Hres Hne Hsmall.
  destruct (on_click_load_pcd_run dp h w png npy data res)
    as (ranked & idxs & rc & clouds & ? & ? & ? & _ & ? & _ & ?); [done..|].
  by exists ranked, idxs, rc, clouds.
Qed.

Lemma on_click_load_pcd_scene_witness :
  ∃ ranked idxs real_coords clouds,
    get_food_mask covered_plate_results = Ok (ranked, idxs) ∧
    pix2point sample_depth DEPTH_INTRINSICS_1280x720 = Ok real_coords ∧
    StronglySorted Z.lt idxs ∧
    Forall2 (cloud_of sample_png ranked real_coords) idxs clouds ∧
    on_click_load_pcd pnpoly_polygon sample_png sample_depth covered_plate =
      (zip (label <$> shapes covered_plate) clouds,
       if decide (length idxs = length (shapes covered_plate))
       then None else Some IndexError).
Proof.
  apply (on_click_load_pcd_scene pnpoly_polygon 2 2 sample_png sample_depth
           covered_plate covered_plate_results).
  - lia.
  - repeat constructor.
  - repeat constructor.
  - repeat (apply Forall_cons; split); try (by constructor); by vm_compute.
  - vm_compute. reflexivity.
  - discriminate.
  - simpl. lia.
Defined.

(** With the plate under the rice, the plate's name goes to the cloud of
    the rice, the rice's name to the cloud of the soup, and the soup gets
    none. *)
Example covered_plate_scene :
  (on_click_load_pcd pnpoly_polygon sample_png sample_depth covered_plate).2
    = Some IndexError ∧
  (fun g : string * point_cloud => (g.1, length (pc_points g.2))) <$>
    (on_click_load_pcd pnpoly_polygon sample_png sample_depth covered_plate).1
    = [("plate", 2%nat); ("rice", 2%nat)].
Proof. vm_compute. split; reflexivity. Qed.

(** X19. For a document of at most 32768 shapes that decodes, every
    coordinate inside the range of [int64], with a colour image and a
    depth image of one size, at least one row high: one
    annotation whose mask is empty or lies wholly under later masks makes
    the handler end with [IndexError], after fewer [add_geometry] calls
    than there are annotations. *)
Theorem on_click_load_pcd_covered_instance
    (dp : list Z → list Z → nat * nat → list (Z * Z))
    (h w : nat) (png : grid (list Z)) (npy : grid float)
    (data : document) (res : results) (i : nat) :
  (0 < h)%nat → has_shape h w png → has_shape h w npy →
  Forall int64_points (shapes data) →
  json2results dp data (h, w) = Ok res →
  Z.of_nat (length (shapes data)) ≤ 32768 →
  (i < length (shapes data))%nat →
  (∀ r c, mask_on (masks res) i r c →
          ∃ j, (i < j)%nat ∧ mask_on (masks res) j r c) →
  ∃ scene,
    on_click_load_pcd dp png npy data = (scene, Some IndexError) ∧
    (length scene < length (shapes data))%nat.
Proof.
  intros Hpos Hpng Hnpy _ Hres Hsmall Hi Hcov.
  destruct (on_click_load_pcd_run dp h w png npy data res)
    as (ranked & idxs & rc & clouds & _ & _ & Hsorted & Hin & Hclouds & Hle & Hrun);
    [done..| |done|].
  { intros Hnil. rewrite Hnil in Hi. simpl in Hi. lia. }
  assert (length idxs ≠ length (shapes data)) as Hlt.
  { intros Hfull.
    assert (Z.of_nat i ∈ idxs) as (i' & Heq & _ & r & c & Hon & Hlast)%Hin.
    { apply (sorted_indices_full idxs (length (shapes data))); [done| |done|lia].
      intros v (i' & -> & Hi' & _)%Hin. lia. }
    apply Nat2Z.inj in Heq. subst i'.
    destruct (Hcov r c Hon) as (j & Hij & Hj). by apply (Hlast j). }
  rewrite decide_False in Hrun by done.
  eexists. split; [exact Hrun|].
  rewrite length_zip, length_fmap, <- (Forall2_length _ _ _ Hclouds). lia.
Qed.

Lemma on_click_load_pcd_covered_instance_witness :
  ∃ scene,
    on_click_load_pcd pnpoly_polygon sample_png sample_depth covered_plate
      = (scene, Some IndexError) ∧
    (length scene < length (shapes covered_plate))%nat.
Proof.
  apply (on_click_load_pcd_covered_instance pnpoly_polygon 2 2 sample_png
           sample_depth covered_plate covered_plate_results 0).
  - lia.
  - repeat constructor.
  - repeat constructor.
  - repeat (apply Forall_cons; split); try (by constructor); by vm_compute.
  - vm_compute. reflexivity.
  - simpl. lia.
  - simpl. lia.
  - intros r c (m & Hm & Hl). injection Hm as <-.
    exists 1%nat. split; [lia|]. eexists. split; [reflexivity|].
    destruct r as [|[|r]], c as [|[|c]]; try discriminate Hl; reflexivity.
Defined.

(** X20. For a document of at least one and at most 32768 shapes that
    decodes, every coordinate inside the range of [int64], with a colour
    image and a depth image of one size, at least one row high: when every instance shows in the label image, the
    handler completes, and every annotation gets one [add_geometry] call,
    under its own label and with the cloud of its own pixels. *)
Theorem on_click_load_pcd_all_seen
    (dp : list Z → list Z → nat * nat → list (Z * Z))
    (h w : nat) (png : grid (list Z)) (npy : grid float)
    (data : document) (res : results) :
  (0 < h)%nat → has_shape h w png → has_shape h w npy →
  Forall int64_points (shapes data) →
  json2results dp data (h, w) = Ok res →
  shapes data ≠ [] →
  Z.of_nat (length (shapes data)) ≤ 32768 →
  (∀ i, (i < length (shapes data))%nat → seen (masks res) i) →
  ∃ ranked idxs real_coords clouds,
    get_food_mask res = Ok (ranked, idxs) ∧
    pix2point npy DEPTH_INTRINSICS_1280x720 = Ok real_coords ∧
    on_click_load_pcd dp png npy data =
      (zip (label <$> shapes data) clouds, None) ∧
    ∀ k s, shapes data !! k = Some s →
      ∃ cloud, clouds !! k = Some cloud ∧
               cloud_of png ranked real_coords (Z.of_nat k) cloud.
Proof.
  intros Hpos Hpng Hnpy _ Hres Hne Hsmall Hseen.
  destruct (on_click_load_pcd_run dp h w png npy data res)
    as (ranked & idxs & rc & clouds & Hgfm & Hrc & Hsorted & Hin & Hclouds & Hle & Hrun);
    [done..|].
  assert (idxs = seqZ 0 (Z.of_nat (length (shapes data)))) as Hidxs.
  { apply sorted_range; [done|]. intros v. rewrite Hin. split.
    - intros (i & -> & Hi & _). lia.
    - intros Hv. exists (Z.to_nat v). split; [lia|]. split; [lia|].
      apply Hseen. lia. }
  exists ranked, idxs, rc, clouds. split; [done|]. split; [done|]. split.
  - rewrite Hrun, decide_True; [done|].
    by rewrite Hidxs, length_seqZ, Nat2Z.id.
  - intros k s Hk. pose proof (lookup_lt_Some _ _ _ Hk) as Hlt.
    assert (idxs !! k = Some (Z.of_nat k)) as Hik.
    { rewrite Hidxs. rewrite lookup_seqZ_lt by lia. done. }
    destruct (Forall2_lookup_l _ _ _ _ _ Hclouds Hik) as (cloud & Hc & Hof).
    eauto.
Qed.

Lemma on_click_load_pcd_all_seen_witness :
  ∃ ranked idxs real_coords clouds,
    get_food_mask side_by_side_results = Ok (ranked, idxs) ∧
    pix2point sample_depth DEPTH_INTRINSICS_1280x720 = Ok real_coords ∧
    on_click_load_pcd pnpoly_polygon sample_png sample_depth side_by_side =
      (zip (label <$> shapes side_by_side) clouds, None) ∧
    ∀ k s, shapes side_by_side !! k = Some s →
      ∃ cloud, clouds !! k = Some cloud ∧
               cloud_of sample_png ranked real_coords (Z.of_nat k) cloud.
Proof.
  apply (on_click_load_pcd_all_seen pnpoly_polygon 2 2 sample_png sample_depth
           side_by_side side_by_side_results).
  - lia.
  - repeat constructor.
  - repeat constructor.
  - repeat (apply Forall_cons; split); try (by constructor); by vm_compute.
  - vm_compute. reflexivity.
  - discriminate.
  - simpl. lia.
  - intros i Hi. destruct i as [|[|i]]; [| |simpl in Hi; lia].
    + exists 0%nat, 0%nat. split; [eexists; split; reflexivity|].
      intros j Hj (m & Hm & Hl).
      destruct j as [|[|j]]; [lia| |discriminate Hm].
      injection Hm as <-. discriminate Hl.
    + exists 0%nat, 1%nat. split; [eexists; split; reflexivity|].
      intros j Hj (m & Hm & Hl).
      destruct j as [|[|j]]; [lia..|discriminate Hm].
Defined.

(** X21. An annotation document without shapes: [json2results] returns
    empty lists, [get_food_mask] raises [IndexError] on them, and the
    handler ends there, before any [add_geometry] call. *)
Theorem on_click_load_pcd_no_shapes
    (dp : list Z → list Z → nat * nat → list (Z * Z))
    (png : grid (list Z)) (npy : grid float) (data : document) :
  shapes data = [] →
  on_click_load_pcd dp png npy data = ([], Some IndexError).
Proof.
  intros Hnil. unfold on_click_load_pcd, load_pcd, json2results.
  rewrite Hnil. reflexivity.
Qed.

Lemma on_click_load_pcd_no_shapes_witness :
  on_click_load_pcd pnpoly_polygon sample_png sample_depth {| shapes := [] |}
    = ([], Some IndexError).
Proof.
  apply (on_click_load_pcd_no_shapes pnpoly_polygon sample_png sample_depth
           {| shapes := [] |}).
  reflexivity.
Defined.

(** X22. A colour image whose height and width are not those of the
    depth image: whatever the document, if it decodes the handler ends
    with [IndexError] before any [add_geometry] call (the masks have the
    depth image's shape, and [png[food_mask]] needs the colour image's). *)
Theorem on_click_load_pcd_size_mismatch
    (dp : list Z → list Z → nat * nat → list (Z * Z))
    (h w h' w' : nat) (png : grid (list Z)) (npy : grid float)
    (data : document) (res : results) :
  (0 < h)%nat → (0 < h')%nat →
  has_shape h' w' png → has_shape h w npy → (h', w') ≠ (h, w) →
  json2results dp data (h, w) = Ok res →
  on_click_load_pcd dp png npy data = ([], Some IndexError).
Proof.
  intros Hpos Hpos' Hpng Hnpy Hdiff Hres.
  destruct (decide (shapes data = [])) as [Hnil|Hne].
  { unfold on_click_load_pcd, load_pcd, json2results.
    rewrite Hnil. reflexivity. }
  destruct (json2results_masks dp data h w res Hres) as (Hnames & Hlen & Hms).
  destruct (get_food_mask_spec h w res) as (ranked & Hgfm & Hsh & _).
  { intros Hnil. rewrite Hnil in Hlen. by destruct (shapes data). }
  { by rewrite Hnames, length_fmap. }
  { done. }
  destruct (pix2point_depth_intrinsics h w npy Hnpy) as (rc & Hrc & Hrcsh).
  unfold on_click_load_pcd, load_pcd.
  rewrite (shape_eq h w npy Hnpy Hpos), Hres. cbn [mbind result_bind].
  rewrite Hgfm. cbn [mbind result_bind]. rewrite Hrc. cbn [mbind result_bind].
  destruct (filter _ _) as [|i idxs].
  - cbn [cloud_loop mbind result_bind]. rewrite Hnames.
    destruct (shapes data); [done|]. reflexivity.
  - assert (boolean_index png (gmap (fun v => bool_decide (v = i)) ranked)
            = Raise IndexError) as Hpx.
    { unfold boolean_index. rewrite decide_False; [done|].
      rewrite (shape_eq h w (gmap _ ranked)) by (done || by apply has_shape_gmap).
      rewrite (shape_eq h' w' png) by done. congruence. }
    cbn [cloud_loop]. unfold food_rgb. rewrite Hpx. reflexivity.
Qed.

Lemma on_click_load_pcd_size_mismatch_witness :
  on_click_load_pcd pnpoly_polygon one_pixel_png sample_depth side_by_side
    = ([], Some IndexError).
Proof.
  apply (on_click_load_pcd_size_mismatch pnpoly_polygon 2 2 1 1 one_pixel_png
           sample_depth side_by_side side_by_side_results).
  - lia.
  - lia.
  - repeat constructor.
  - repeat constructor.
  - intros H. injection H as H _. lia.
  - vm_compute. reflexivity.
Defined.

(** ** [pix2point] with [DEPTH_INTRINSICS_1280x720] *)

Lemma no_distortion_720p :
  no_distortion DEPTH_INTRINSICS_1280x720 720 1280 = true.
Proof. vm_compute. reflexivity. Qed.

Lemma no_distortion_pixel (d : intrinsics) (h w row col : nat) :
  no_distortion d h w = true → (row < h)%nat → (col < w)%nat →
  distort 0 0 0 0 0 (normalized_x d col) (normalized_y d row)
    = (normalized_x d col, normalized_y d row).
Proof.
  unfold no_distortion. intros Hall Hr Hc.
  rewrite forallb_forall in Hall.
  specialize (Hall (normalized_y d row)).
  rewrite forallb_forall in Hall.
  specialize (Hall ltac:(apply list_elem_of_In, list_elem_of_fmap_2, elem_of_seq; lia)
                   (normalized_x d col)
                   ltac:(apply list_elem_of_In, list_elem_of_fmap_2, elem_of_seq; lia)).
  apply andb_true_iff in Hall as [H1 H2].
  apply Leibniz.eqb_spec in H1, H2.
  destruct (distort _ _ _ _ _ _ _) as [x' y']. simpl in *. by subst.
Qed.

Lemma brown_conrady_distort (d : intrinsics) (k1 k2 p1 p2 k3 : float)
    (row col : nat) (depth : float) :
  brown_conrady d k1 k2 p1 p2 k3 row col depth =
    [(depth * (distort k1 k2 p1 p2 k3 (normalized_x d col) (normalized_y d row)).1)%float;
     (depth * (distort k1 k2 p1 p2 k3 (normalized_x d col) (normalized_y d row)).2)%float;
     depth].
Proof. reflexivity. Qed.

(** X23. With the intrinsics the application passes,
    [DEPTH_INTRINSICS_1280x720], whose distortion coefficients are all
    zero, the distortion step of [pix2point] changes nothing, bit for bit:
    for every depth image of at most 720 rows and 1280 columns the point
    at (row, col) is (D (col - ppx) / fx, D (row - ppy) / fy, D), the
    pinhole back-projection. *)
Theorem pix2point_depth_intrinsics_no_distortion (h w : nat) (D : grid float) :
  has_shape h w D → (h ≤ 720)%nat → (w ≤ 1280)%nat →
  ∃ out, pix2point D DEPTH_INTRINSICS_1280x720 = Ok out ∧ has_shape h w out ∧
    ∀ row col depth, glookup D row col = Some depth →
      glookup out row col =
        Some [depth * ((of_int64 (Z.of_nat col) - ppx DEPTH_INTRINSICS_1280x720)
                         / fx DEPTH_INTRINSICS_1280x720);
              depth * ((of_int64 (Z.of_nat row) - ppy DEPTH_INTRINSICS_1280x720)
                         / fy DEPTH_INTRINSICS_1280x720);
              depth]%float.
Proof.
  intros HD Hh Hw.
  destruct (pix2point_pixels h w D DEPTH_INTRINSICS_1280x720 0 0 0 0 0 HD)
    as (out & Hout & Hsh & Hpix); [done|].
  exists out. split; [done|]. split; [done|].
  intros row col depth Hl. rewrite (Hpix row col depth Hl).
  destruct (glookup_lt _ _ _ _ _ _ HD Hl) as [Hr Hc].
  rewrite brown_conrady_distort.
  rewrite (no_distortion_pixel _ 720 1280 row col no_distortion_720p) by lia.
  reflexivity.
Qed.

Lemma pix2point_depth_intrinsics_no_distortion_witness :
  ∃ out, pix2point sample_depth DEPTH_INTRINSICS_1280x720 = Ok out ∧
    has_shape 2 2 out ∧
    ∀ row col depth, glookup sample_depth row col = Some depth →
      glookup out row col =
        Some [depth * ((of_int64 (Z.of_nat col) - ppx DEPTH_INTRINSICS_1280x720)
                         / fx DEPTH_INTRINSICS_1280x720);
              depth * ((of_int64 (Z.of_nat row) - ppy DEPTH_INTRINSICS_1280x720)
                         / fy DEPTH_INTRINSICS_1280x720);
              depth]%float.
Proof.
  apply (pix2point_depth_intrinsics_no_distortion 2 2 sample_depth).
  - repeat constructor.
  - lia.
  - lia.
Defined.

(** ** [json2results]: the polygon path on any points *)

Section polygon_more.
Variable dp : list Z → list Z → nat * nat → list (Z * Z).




End polygon_more.


